(** * Lobby/session orchestration engine of [app.py]

    A shallow embedding of the Socket.IO event handlers of [src/app.py] and
    the properties of the specification checked against them.

    The module text of [app.py] holds every definition twice; the later
    definition of a name is the one bound when the module has been loaded, and
    it is the one embedded here (lines 349-715).  The earlier copy differs in
    [join_lobby] (no message on a started game, no capacity check), in
    [send_reaction] (the payload is forwarded as it is) and has no
    [done_presenting].

    Conventions of the embedding:
    - identities and connection handles are strings; a payload is a dict from
      strings to JSON values, of which [None], integers and strings are
      modelled;
    - the four global dicts are the fields of [World]; a handler is a function
      from the world to an [outcome] holding the new world and the events it
      emitted, in order;
    - a handler runs to completion: every [await sio.emit(...)] is one emitted
      event, a send never fails;
    - [random.randint], [random.shuffle] and [uuid.uuid4] are oracles: the
      successive results are arguments of the handler;
    - Python exceptions are the [Raised] outcome. *)

From stdpp Require Import gmap strings list fin_maps pretty.
From Stdlib Require Import ZArith Lia.

Local Open Scope string_scope.
Local Open Scope Z_scope.
Local Open Scope list_scope.

(** ** Python values carried by JSON payloads *)

Inductive value :=
  | VNone
  | VInt (z : Z)
  | VStr (s : string).

#[global] Instance value_eq_dec : EqDecision value.
Proof. solve_decision. Defined.

Definition value_enc (v : value) : option (Z + string) :=
  match v with
  | VNone => None
  | VInt z => Some (inl z)
  | VStr s => Some (inr s)
  end.

Definition value_dec (x : option (Z + string)) : value :=
  match x with
  | None => VNone
  | Some (inl z) => VInt z
  | Some (inr s) => VStr s
  end.

#[global] Instance value_countable : Countable value.
Proof. apply (inj_countable' value_enc value_dec). by intros []. Defined.

(** Truth value of [if v:] / [not v]. *)
Definition truthy (v : value) : bool :=
  match v with
  | VNone => false
  | VInt z => negb (z =? 0)
  | VStr s => negb (String.eqb s "")
  end.

(** Truth value of a string, and of the result of [dict.get] / [dict.pop]
    with default [None] on a dict of strings. *)
Definition str_truthy (s : string) : bool := negb (String.eqb s "").

Definition opt_truthy (o : option string) : bool :=
  match o with
  | Some s => str_truthy s
  | None => false
  end.

(** [dict.get(k)] of a payload dict: [None] when the key is absent. *)
Definition dict_get (data : gmap string value) (k : string) : value :=
  default VNone (data !! k).

(** ** Enums *)

Inductive GameState := WAITING | WRITING | VIEWING | DRAWING | PRESENTING | END.

#[global] Instance GameState_eq_dec : EqDecision GameState.
Proof. solve_decision. Defined.

Definition GameState_value (s : GameState) : string :=
  match s with
  | WAITING => "waiting"
  | WRITING => "writing"
  | VIEWING => "viewing"
  | DRAWING => "drawing"
  | PRESENTING => "presenting"
  | END => "end"
  end.

(** ** Player *)

Module Player.

Record t := mk {
  id : string;
  username : value;
  prompt_written : value;
  prompt_given : value;
  drawing_data : option string;
  voted_already : bool;
  voting_score : Z
}.

(** [Player.__init__] *)
Definition init (id : string) (username : value) : t :=
  mk id username VNone VNone None false 0.

Definition set_prompt_written (v : value) (p : t) : t :=
  mk (id p) (username p) v (prompt_given p) (drawing_data p)
     (voted_already p) (voting_score p).

Definition set_prompt_given (v : value) (p : t) : t :=
  mk (id p) (username p) (prompt_written p) v (drawing_data p)
     (voted_already p) (voting_score p).

Definition set_voted_already (b : bool) (p : t) : t :=
  mk (id p) (username p) (prompt_written p) (prompt_given p)
     (drawing_data p) b (voting_score p).

Definition add_voting_score (z : Z) (p : t) : t :=
  mk (id p) (username p) (prompt_written p) (prompt_given p)
     (drawing_data p) (voted_already p) (voting_score p + z).

(** [Player.get_as_dict] *)
Record dict := mk_dict {
  d_id : string;
  d_username : value;
  d_prompt_written : value;
  d_prompt_given : value
}.

Definition get_as_dict (p : t) : dict :=
  mk_dict (id p) (username p) (prompt_written p) (prompt_given p).

End Player.

(** ** Emitted events *)

Inductive payload :=
  | PValue (v : value)
  | PPlayers (ps : list Player.dict)
  | PData (d : gmap string value)
  | PStats (l : list (value * Z))
  | PReaction (emoji : value) (username : value).

(** [sio.emit(event, data, to)] *)
Record Emit := mkEmit {
  ev_name : string;
  ev_data : payload;
  ev_to : string
}.

(** ** Lobby *)

Module Lobby.

Record t := mk {
  host_id : string;
  lobby_code : Z;
  players : list Player.t;
  current_state : GameState
}.

Definition set_players (ps : list Player.t) (l : t) : t :=
  mk (host_id l) (lobby_code l) ps (current_state l).

Definition set_current_state (s : GameState) (l : t) : t :=
  mk (host_id l) (lobby_code l) (players l) s.

(** The identities of the roster, in roster order. *)
Definition ids (l : t) : list string := Player.id <$> players l.

(** [Lobby._generate_lobby_code]: [samples] are the successive results of
    [random.randint(1000, 999999)]; [None] when the loop is still running
    after the last of them.  The membership test is made on [str(code)],
    as in the source. *)
Fixpoint _generate_lobby_code (lobbies : gmap value t)
    (samples : list Z) : option Z :=
  match samples with
  | [] => None
  | code :: rest =>
      match lobbies !! VStr (pretty code) with
      | None => Some code
      | Some _ => _generate_lobby_code lobbies rest
      end
  end.

(** [Lobby.__init__] *)
Definition init (lobbies : gmap value t) (samples : list Z)
    (host_id : string) : option t :=
  match _generate_lobby_code lobbies samples with
  | Some code => Some (mk host_id code [] WAITING)
  | None => None
  end.

(** [Lobby.add_player]: the callback runs after the append and sees the
    lobby as mutated. *)
Definition add_player (l : t) (player : Player.t)
    (callback : option (t → Player.t → list Emit))
  : t * list Emit :=
  let l' := set_players (players l ++ [player]) l in
  match callback with
  | Some f => (l', f l' player)
  | None => (l', [])
  end.

(** [list.remove] of the first player found with the given id. *)
Fixpoint remove_first (player_id : string) (ps : list Player.t)
  : list Player.t :=
  match ps with
  | [] => []
  | p :: ps' =>
      if decide (Player.id p = player_id) then ps'
      else p :: remove_first player_id ps'
  end.

(** [Lobby.remove_player] *)
Definition remove_player (l : t) (player_id : string)
    (callback : option (t → Player.t → list Emit))
  : t * list Emit :=
  match find (λ p, bool_decide (Player.id p = player_id)) (players l) with
  | Some player =>
      let l' := set_players (remove_first player_id (players l)) l in
      match callback with
      | Some f => (l', f l' player)
      | None => (l', [])
      end
  | None => (l, [])
  end.

End Lobby.

(** ** Global state *)

Record World := mkWorld {
  lobbies : gmap value Lobby.t;
  player_to_lobby : gmap string Z;
  sid_to_id : gmap string string;
  id_to_sid : gmap string string
}.

Definition empty_world : World := mkWorld ∅ ∅ ∅ ∅.

Definition set_lobbies (m : gmap value Lobby.t) (w : World) : World :=
  mkWorld m (player_to_lobby w) (sid_to_id w) (id_to_sid w).

Definition set_player_to_lobby (m : gmap string Z) (w : World) : World :=
  mkWorld (lobbies w) m (sid_to_id w) (id_to_sid w).

Definition set_sid_to_id (m : gmap string string) (w : World) : World :=
  mkWorld (lobbies w) (player_to_lobby w) m (id_to_sid w).

Definition set_id_to_sid (m : gmap string string) (w : World) : World :=
  mkWorld (lobbies w) (player_to_lobby w) (sid_to_id w) m.

(** ** Outcomes *)

Inductive exn :=
  | KeyError (k : string)
  | AttributeError (attr : string)
  | TypeError.

(** What a handler call ends with: a normal return, or an exception leaving
    the handler, each with the world and the events emitted up to then. *)
Inductive outcome :=
  | Returned (w : World) (out : list Emit)
  | Raised (e : exn) (w : World) (out : list Emit).

Definition out_world (o : outcome) : World :=
  match o with
  | Returned w _ => w
  | Raised _ w _ => w
  end.

Definition out_events (o : outcome) : list Emit :=
  match o with
  | Returned _ out => out
  | Raised _ _ out => out
  end.

(** ** Utilities *)

Definition get_id_from_sid (w : World) (sid : string) : string :=
  default sid (sid_to_id w !! sid).

Definition get_sid_from_id (w : World) (player_id : string) : string :=
  default player_id (id_to_sid w !! player_id).

(** The second component is what the source binds to [lobby_code] (and, in
    [send_reaction], to [player]). *)
Definition get_lobby_and_player (w : World) (player_id : string)
  : option Lobby.t * option Z :=
  match player_to_lobby w !! player_id with
  | None => (None, None)
  | Some lobby_code =>
      if lobby_code =? 0 then (None, None)
      else (lobbies w !! VInt lobby_code, Some lobby_code)
  end.

(** ** Matchmaking and connection handlers *)

(** [assign_id]: [data] is the identity supplied by the client, if any;
    [uuid] is the value of [uuid.uuid4().hex]. *)
Definition assign_id (w : World) (sid : string) (data : option string)
    (uuid : string) : outcome :=
  let player_id := if opt_truthy data then default uuid data else uuid in
  let w := set_sid_to_id (<[sid := player_id]> (sid_to_id w)) w in
  let w := set_id_to_sid (<[player_id := sid]> (id_to_sid w)) w in
  Returned w [mkEmit "assign_id" (PValue (VStr player_id)) sid].

Definition host_gone : payload :=
  PValue (VStr "The host has disconnected from the game!").

(** The loop of [disconnect] over the roster of a lobby whose host left. *)
Fixpoint orphan_members (player_id : string) (ps : list Player.t) (w : World)
  : World * list Emit :=
  match ps with
  | [] => (w, [])
  | p :: ps' =>
      if decide (Player.id p ≠ player_id) then
        let sid_ := id_to_sid w !! Player.id p in
        let w := set_id_to_sid (delete (Player.id p) (id_to_sid w)) w in
        let w := set_player_to_lobby (delete (Player.id p) (player_to_lobby w)) w in
        let w := match sid_ with
                 | Some s => set_sid_to_id (delete s (sid_to_id w)) w
                 | None => w
                 end in
        let '(w', out) := orphan_members player_id ps' w in
        if opt_truthy sid_
        then (w', mkEmit "disconnected" host_gone (default "" sid_) :: out)
        else (w', out)
      else orphan_members player_id ps' w
  end.

(** The last loop of [disconnect]: the roster update for the members other
    than the host's connection. *)
Fixpoint update_members (w : World) (players : payload)
    (host_sid : option string) (ps : list Player.t) : list Emit :=
  match ps with
  | [] => []
  | p :: ps' =>
      let sid_ := id_to_sid w !! Player.id p in
      if opt_truthy sid_ && bool_decide (sid_ ≠ host_sid)
      then mkEmit "players_update" players (default "" sid_)
             :: update_members w players host_sid ps'
      else update_members w players host_sid ps'
  end.

Definition disconnect (w : World) (sid : string) : outcome :=
  let player_id := sid_to_id w !! sid in
  let w := set_sid_to_id (delete sid (sid_to_id w)) w in
  match player_id with
  | None => Returned w []
  | Some player_id =>
      if negb (str_truthy player_id) then Returned w [] else
      let '(lobby, lobby_code) := get_lobby_and_player w player_id in
      let w := set_id_to_sid (delete player_id (id_to_sid w)) w in
      let w := set_player_to_lobby (delete player_id (player_to_lobby w)) w in
      match lobby, lobby_code with
      | Some lobby, Some lobby_code =>
          if decide (Lobby.host_id lobby = player_id) then
            let '(w, out) := orphan_members player_id (Lobby.players lobby) w in
            Returned (set_lobbies (delete (VInt lobby_code) (lobbies w)) w) out
          else
            let '(lobby, _) := Lobby.remove_player lobby player_id None in
            let w := set_lobbies (<[VInt lobby_code := lobby]> (lobbies w)) w in
            let players := PPlayers (Player.get_as_dict <$> Lobby.players lobby) in
            let host_sid := id_to_sid w !! Lobby.host_id lobby in
            let to_host :=
              if opt_truthy host_sid
              then [mkEmit "players_update" players (default "" host_sid)]
              else [] in
            Returned w
              (to_host ++ update_members w players host_sid (Lobby.players lobby))
      | _, _ => Returned w []
      end
  end.

(** ** Lobby events *)

(** [create_lobby]: [None] when [_generate_lobby_code] has not returned
    within [samples]. *)
Definition create_lobby (w : World) (sid : string) (samples : list Z)
  : option outcome :=
  let host_id := get_id_from_sid w sid in
  match Lobby.init (lobbies w) samples host_id with
  | None => None
  | Some lobby =>
      let code := Lobby.lobby_code lobby in
      let w := set_lobbies (<[VInt code := lobby]> (lobbies w)) w in
      let w := set_player_to_lobby (<[host_id := code]> (player_to_lobby w)) w in
      Some (Returned w [mkEmit "lobby_created" (PValue (VInt code)) sid])
  end.

Definition error (msg : string) (sid : string) : Emit :=
  mkEmit "error" (PValue (VStr msg)) sid.

(** The callback [on_join] of [join_lobby]; [w] is the world at the call. *)
Definition on_join (w : World) (sid : string) (lobby : Lobby.t)
    (p : Player.t) : list Emit :=
  let players := PPlayers (Player.get_as_dict <$> Lobby.players lobby) in
  let host_sid := id_to_sid w !! Lobby.host_id lobby in
  mkEmit "joined_lobby" (PValue (VInt (Lobby.lobby_code lobby))) sid ::
  (if opt_truthy host_sid
   then [mkEmit "players_update" players (default "" host_sid)]
   else []).

Definition join_lobby (w : World) (sid : string) (data : gmap string value)
  : outcome :=
  let username := dict_get data "username" in
  let lobby_code := dict_get data "lobby_code" in
  if negb (truthy username) || negb (truthy lobby_code) then
    Returned w [error "Username and lobby_code are required!" sid]
  else
    match lobbies w !! lobby_code with
    | None => Returned w [error "Lobby not found!" sid]
    | Some lobby =>
        if decide (Lobby.current_state lobby ≠ WAITING) then
          Returned w [error "Game is already started!" sid]
        else if decide (12 ≤ length (Lobby.players lobby))%nat then
          Returned w [error "Lobby is full!" sid]
        else
          let player := Player.init (get_id_from_sid w sid) username in
          let w := set_player_to_lobby
                     (<[Player.id player := Lobby.lobby_code lobby]>
                        (player_to_lobby w)) w in
          let '(lobby, out) :=
            Lobby.add_player lobby player (Some (on_join w sid)) in
          Returned (set_lobbies (<[lobby_code := lobby]> (lobbies w)) w) out
    end.

(** ** Game flow *)

Definition game_state (w : World) (s : GameState) (p : Player.t) : Emit :=
  mkEmit "game_state" (PValue (VStr (GameState_value s)))
    (get_sid_from_id w (Player.id p)).

Definition start_game (w : World) (sid : string) : outcome :=
  let player_id := get_id_from_sid w sid in
  match get_lobby_and_player w player_id with
  | (Some lobby, Some lobby_code) =>
      let lobby := Lobby.set_current_state WRITING lobby in
      Returned (set_lobbies (<[VInt lobby_code := lobby]> (lobbies w)) w)
        (game_state w WRITING <$> Lobby.players lobby)
  | _ => Returned w []
  end.

(** The first loop of [submit_prompt]: the roster as mutated, the events sent,
    and the [KeyError] of [data['prompt']] if it was raised. *)
Fixpoint submit_loop (w : World) (player_id : string)
    (data : gmap string value) (ps : list Player.t)
  : option exn * list Player.t * list Emit :=
  match ps with
  | [] => (None, [], [])
  | p :: ps' =>
      if decide (Player.id p = player_id) then
        match data !! "prompt" with
        | None => (Some (KeyError "prompt"), p :: ps', [])
        | Some v =>
            let '(e, ps'', out) := submit_loop w player_id data ps' in
            (e, Player.set_prompt_written v p :: ps'',
             mkEmit "writing_submitted" (PValue VNone)
               (get_sid_from_id w player_id) :: out)
        end
      else
        let '(e, ps'', out) := submit_loop w player_id data ps' in
        (e, p :: ps'', out)
  end.

Definition submit_prompt (w : World) (sid : string) (data : gmap string value)
  : outcome :=
  let player_id := get_id_from_sid w sid in
  match get_lobby_and_player w player_id with
  | (Some lobby, Some lobby_code) =>
      let '(e, ps, out) := submit_loop w player_id data (Lobby.players lobby) in
      let lobby := Lobby.set_players ps lobby in
      let w' := set_lobbies (<[VInt lobby_code := lobby]> (lobbies w)) w in
      match e with
      | Some e => Raised e w' out
      | None =>
          if forallb (λ p, truthy (Player.prompt_written p)) ps then
            Returned w'
              (out ++ [mkEmit "finish_writing"
                         (PValue (VInt (Z.of_nat (length ps))))
                         (get_sid_from_id w (Lobby.host_id lobby))])
          else Returned w' out
      end
  | _ => Returned w []
  end.

(** *** Prompt redistribution *)

(** An entry of [prompt_pool]; [uid] stands for the [uuid.uuid4()] of the
    entry, which differs from entry to entry and is never read. *)
Record Prompt := mkPrompt {
  uid : nat;
  text : value;
  owner : string
}.

Definition prompt_pool (players : list Player.t) : list Prompt :=
  imap (λ i p, mkPrompt i (Player.prompt_written p) (Player.id p)) players.

(** The test of the [while True] loop,
    [all(players[i].id != prompt_pool[i]["owner"] for i in range(len(players)))].
    A pool shorter than the roster (an [IndexError] in Python, which a shuffle
    of the pool never produces) fails the test. *)
Definition no_own_prompt (players : list Player.t) (pool : list Prompt) : bool :=
  forallb
    (λ i, match players !! i, pool !! i with
          | Some p, Some q => bool_decide (Player.id p ≠ owner q)
          | _, _ => false
          end)
    (seq 0 (length players)).

(** The [while True] loop: [draws] are the successive states of the pool
    after each [random.shuffle]; the result is the pool at the [break], and
    [None] when the loop is still running after the last draw. *)
Fixpoint shuffle_until (players : list Player.t) (draws : list (list Prompt))
  : option (list Prompt) :=
  match draws with
  | [] => None
  | pool :: rest =>
      if no_own_prompt players pool then Some pool
      else shuffle_until players rest
  end.

(** The loop over [enumerate(players)]. *)
Definition give_prompts (pool : list Prompt) (players : list Player.t)
  : list Player.t :=
  imap (λ i player,
          Player.set_prompt_given (default VNone (text <$> pool !! i)) player)
       players.

Definition give_prompt (w : World) (player : Player.t) : Emit :=
  mkEmit "give_prompt" (PValue (Player.prompt_given player))
    (get_sid_from_id w (Player.id player)).

(** [hand_out_prompts]: [None] when the shuffle loop has not exited within
    [draws]. *)
Definition hand_out_prompts (w : World) (sid : string)
    (draws : list (list Prompt)) : option outcome :=
  let player_id := get_id_from_sid w sid in
  match get_lobby_and_player w player_id with
  | (Some lobby, Some lobby_code) =>
      let players := Lobby.players lobby in
      match shuffle_until players draws with
      | None => None
      | Some pool =>
          let players := give_prompts pool players in
          let lobby := Lobby.set_players players lobby in
          Some (Returned
                  (set_lobbies (<[VInt lobby_code := lobby]> (lobbies w)) w)
                  ((give_prompt w <$> players)
                   ++ [mkEmit "start_viewing" (PValue (VStr "")) sid]))
      end
  | _ => Some (Returned w [])
  end.

Definition start_drawing (w : World) (sid : string) : outcome :=
  let player_id := get_id_from_sid w sid in
  match get_lobby_and_player w player_id with
  | (Some lobby, _) =>
      Returned w
        (mkEmit "drawing_started" (PValue (VStr (GameState_value DRAWING))) sid
         :: (game_state w DRAWING <$> Lobby.players lobby))
  | _ => Returned w []
  end.

(** *** Presenting and voting *)

Definition announce_presenter (w : World) (data : gmap string value)
    (target : value) (p : Player.t) : Emit :=
  if decide (target = VStr (Player.id p))
  then mkEmit "you_are_presenting" (PData data) (get_sid_from_id w (Player.id p))
  else mkEmit "current_presenter" (PData data) (get_sid_from_id w (Player.id p)).

Definition set_presenter (w : World) (sid : string) (data : gmap string value)
  : outcome :=
  let player_id := get_id_from_sid w sid in
  match get_lobby_and_player w player_id with
  | (Some lobby, Some lobby_code) =>
      match data !! "id", Lobby.players lobby with
      | Some target, ps =>
          let lobby :=
            Lobby.set_players (Player.set_voted_already false <$> ps) lobby in
          Returned (set_lobbies (<[VInt lobby_code := lobby]> (lobbies w)) w)
            (announce_presenter w data target <$> ps)
      | None, [] => Returned w []
      | None, p :: ps =>
          (* [data['id']] raises in the first turn of the loop, after the
             flag of the first player has been reset *)
          let lobby :=
            Lobby.set_players (Player.set_voted_already false p :: ps) lobby in
          Raised (KeyError "id")
            (set_lobbies (<[VInt lobby_code := lobby]> (lobbies w)) w) []
      end
  | _ => Returned w []
  end.

(** The inner loop of [vote_presentation]: the score goes to the first player
    whose id is the target. *)
Fixpoint add_score (target : value) (data : gmap string value)
    (ps : list Player.t) : exn + list Player.t :=
  match ps with
  | [] => inr []
  | t :: ps' =>
      if decide (VStr (Player.id t) = target) then
        match data !! "score" with
        | Some (VInt z) => inr (Player.add_voting_score z t :: ps')
        | Some _ => inl TypeError
        | None => inl (KeyError "score")
        end
      else
        match add_score target data ps' with
        | inr ps'' => inr (t :: ps'')
        | inl e => inl e
        end
  end.

(** The outer loop of [vote_presentation]: [seen] are the players already
    passed, [todo] the ones still to visit. *)
Fixpoint vote_loop (player_id : string) (data : gmap string value)
    (seen todo : list Player.t) : option exn * list Player.t :=
  match todo with
  | [] => (None, seen)
  | p :: todo' =>
      if decide (Player.id p = player_id) then
        match data !! "id" with
        | None => (Some (KeyError "id"), seen ++ p :: todo')
        | Some target =>
            if bool_decide (target ≠ VStr (Player.id p))
               && negb (Player.voted_already p)
            then
              let roster := seen ++ Player.set_voted_already true p :: todo' in
              match add_score target data roster with
              | inr roster' => (None, roster')
              | inl e => (Some e, roster)
              end
            else vote_loop player_id data (seen ++ [p]) todo'
        end
      else vote_loop player_id data (seen ++ [p]) todo'
  end.

Definition voted (sid : string) : Emit := mkEmit "voted" (PValue VNone) sid.

Definition vote_presentation (w : World) (sid : string)
    (data : gmap string value) : outcome :=
  let player_id := get_id_from_sid w sid in
  match get_lobby_and_player w player_id with
  | (Some lobby, Some lobby_code) =>
      let '(e, ps) := vote_loop player_id data [] (Lobby.players lobby) in
      let lobby := Lobby.set_players ps lobby in
      let w := set_lobbies (<[VInt lobby_code := lobby]> (lobbies w)) w in
      match e with
      | Some e => Raised e w []
      | None => Returned w [voted sid]
      end
  | _ => Returned w []
  end.

(** [sio.emit] is a coroutine function: a call that is not awaited builds a
    coroutine object which is dropped, and nothing is sent. *)
Definition not_awaited (coroutine : Emit) : list Emit := [].

Definition player_stats (ps : list Player.t) : list (value * Z) :=
  (λ p, (Player.username p, Player.voting_score p)) <$> ps.

Definition done_presenting (w : World) (sid : string) : outcome :=
  let player_id := get_id_from_sid w sid in
  match get_lobby_and_player w player_id with
  | (Some lobby, _) =>
      Returned w
        (not_awaited
           (mkEmit "game_end" (PStats (player_stats (Lobby.players lobby))) sid))
  | _ => Returned w []
  end.

(** [player.username] where [player] is bound to the second component of
    [get_lobby_and_player], the lobby code: an [int] has no such attribute. *)
Definition int_username (player : Z) : exn + value :=
  inl (AttributeError "username").

Definition send_reaction (w : World) (sid : string) (reaction : value)
  : outcome :=
  let player_id := get_id_from_sid w sid in
  match get_lobby_and_player w player_id with
  | (Some lobby, Some player) =>
      match int_username player with
      | inr username =>
          Returned w [mkEmit "reaction" (PReaction reaction username)
                        (get_sid_from_id w (Lobby.host_id lobby))]
      | inl e => Raised e w []
      end
  | _ => Returned w []
  end.

(** ** The earlier definitions that differ *)

Module Earlier.

(** [join_lobby] of lines 169-190: a started game is left without an
    answer, and the roster size is not looked at. *)
Definition join_lobby (w : World) (sid : string) (data : gmap string value)
  : outcome :=
  let username := dict_get data "username" in
  let lobby_code := dict_get data "lobby_code" in
  if negb (truthy username) || negb (truthy lobby_code) then
    Returned w [error "Username and lobby_code are required!" sid]
  else
    match lobbies w !! lobby_code with
    | None => Returned w [error "Lobby not found!" sid]
    | Some lobby =>
        if decide (Lobby.current_state lobby ≠ WAITING) then Returned w []
        else
          let player := Player.init (get_id_from_sid w sid) username in
          let w := set_player_to_lobby
                     (<[Player.id player := Lobby.lobby_code lobby]>
                        (player_to_lobby w)) w in
          let '(lobby, out) :=
            Lobby.add_player lobby player (Some (on_join w sid)) in
          Returned (set_lobbies (<[lobby_code := lobby]> (lobbies w)) w) out
    end.

(** [send_reaction] of lines 317-323: the payload is forwarded. *)
Definition send_reaction (w : World) (sid : string) (reaction : value)
  : outcome :=
  let player_id := get_id_from_sid w sid in
  match get_lobby_and_player w player_id with
  | (Some lobby, _) =>
      Returned w [mkEmit "reaction" (PValue reaction)
                    (get_sid_from_id w (Lobby.host_id lobby))]
  | _ => Returned w []
  end.

End Earlier.

(** ** Properties the statements below are phrased with *)

(** Every lobby of the registry is stored under its own integer code. *)
Definition keyed_by_code (m : gmap value Lobby.t) : Prop :=
  map_Forall (λ k l, k = VInt (Lobby.lobby_code l)) m.

(** The reverse index is consistent with the registry one way: an identity
    of the index is mapped to the code of a live lobby, and is that lobby's
    host or in its roster. *)
Definition index_sound (w : World) : Prop :=
  ∀ i c, player_to_lobby w !! i = Some c →
         ∃ l, lobbies w !! VInt c = Some l
              ∧ (i = Lobby.host_id l ∨ i ∈ Lobby.ids l).

Definition index_consistent (w : World) : Prop :=
  keyed_by_code (lobbies w) ∧ index_sound w.

(** The two-way reading of the specification: an identity is in the reverse
    index exactly when some live lobby has it in its roster. *)
Definition index_bidirectional (w : World) : Prop :=
  ∀ i, is_Some (player_to_lobby w !! i) ↔
       ∃ k l, lobbies w !! k = Some l ∧ i ∈ Lobby.ids l.

(** The inbound events that change the registry and the reverse index. *)
Inductive event :=
  | EvAssignId (sid : string) (data : option string) (uuid : string)
  | EvCreateLobby (sid : string) (samples : list Z)
  | EvJoinLobby (sid : string) (data : gmap string value)
  | EvDisconnect (sid : string).

Definition step (w : World) (ev : event) : option World :=
  match ev with
  | EvAssignId sid data uuid => Some (out_world (assign_id w sid data uuid))
  | EvCreateLobby sid samples => out_world <$> create_lobby w sid samples
  | EvJoinLobby sid data => Some (out_world (join_lobby w sid data))
  | EvDisconnect sid => Some (out_world (disconnect w sid))
  end.

Fixpoint run (w : World) (evs : list event) : option World :=
  match evs with
  | [] => Some w
  | ev :: evs' =>
      match step w ev with
      | Some w' => run w' evs'
      | None => None
      end
  end.

(** A lobby creation whose first sample is the code of a live lobby. *)
Definition collides (w : World) (ev : event) : Prop :=
  match ev with
  | EvCreateLobby _ (code :: _) => is_Some (lobbies w !! VInt code)
  | _ => False
  end.

Fixpoint collision_free (w : World) (evs : list event) : Prop :=
  match evs with
  | [] => True
  | ev :: evs' =>
      ¬ collides w ev
      ∧ match step w ev with
        | Some w' => collision_free w' evs'
        | None => True
        end
  end.

(** The identities a host disconnect notifies: the roster members other than
    the host that are bound to a connection, each once, in roster order. *)
Fixpoint notified (host : string) (m : gmap string string) (ids : list string)
  : list string :=
  match ids with
  | [] => []
  | i :: ids' =>
      if decide (i ≠ host) then
        if opt_truthy (m !! i) then i :: notified host (delete i m) ids'
        else notified host (delete i m) ids'
      else notified host m ids'
  end.

(** The message a host disconnect sends for identity [i], to the connection
    [m] binds it to. *)
Definition notice (m : gmap string string) (i : string) : Emit :=
  mkEmit "disconnected" host_gone (default "" (m !! i)).

(** The validation failures of [join_lobby]: a missing username or lobby
    code, an unknown code, a lobby that is not WAITING, a roster of 12. *)
Definition join_rejected (w : World) (data : gmap string value) : Prop :=
  truthy (dict_get data "username") = false
  ∨ truthy (dict_get data "lobby_code") = false
  ∨ lobbies w !! dict_get data "lobby_code" = None
  ∨ ∃ l, lobbies w !! dict_get data "lobby_code" = Some l
         ∧ (Lobby.current_state l ≠ WAITING
            ∨ (12 ≤ length (Lobby.players l))%nat).

(** Every roster of the registry is within the capacity. *)
Definition rosters_bounded (w : World) : Prop :=
  map_Forall (λ _ l, (length (Lobby.players l) ≤ 12)%nat) (lobbies w).

(** ** Scenarios *)

Module Scenario.

Definition join_data (username : string) (code : Z) : gmap string value :=
  {[ "username" := VStr username; "lobby_code" := VInt code ]}.

Definition vote_data (target : string) (score : Z) : gmap string value :=
  {[ "id" := VStr target; "score" := VInt score ]}.

(** Host [H] on connection [s_h] has created lobby 1234. *)
Definition hosted : World :=
  let w := out_world (assign_id empty_world "s_h" (Some "H") "u0") in
  default w (out_world <$> create_lobby w "s_h" [1234]).

(** [A] then joins as Ann from connection [s_a]. *)
Definition one_member : World :=
  let w := out_world (assign_id hosted "s_a" (Some "A") "u1") in
  out_world (join_lobby w "s_a" (join_data "Ann" 1234)).

(** [B] then joins as Bob from connection [s_b]. *)
Definition b_connected : World :=
  out_world (assign_id one_member "s_b" (Some "B") "u2").

Definition two_members : World :=
  out_world (join_lobby b_connected "s_b" (join_data "Bob" 1234)).

(** The host opens a presentation round with Bob presenting. *)
Definition round : World :=
  out_world (set_presenter two_members "s_h" {[ "id" := VStr "B" ]}).

(** The game is started and both members submit their prompts. *)
Definition written : World :=
  let w := out_world (start_game two_members "s_h") in
  let w := out_world (submit_prompt w "s_a" {[ "prompt" := VStr "cat" ]}) in
  out_world (submit_prompt w "s_b" {[ "prompt" := VStr "dog" ]}).

(** The two prompts of [written], swapped. *)
Definition swapped : list Prompt :=
  [mkPrompt 1 (VStr "dog") "B"; mkPrompt 0 (VStr "cat") "A"].

(** Only Ann has joined when the game is started and she submits. *)
Definition written_alone : World :=
  let w := out_world (start_game one_member "s_h") in
  out_world (submit_prompt w "s_a" {[ "prompt" := VStr "cat" ]}).

(** [A] joins a second time from the same connection before Bob does, and
    the host opens a presentation round. *)
Definition joined_twice : World :=
  let w := out_world (join_lobby one_member "s_a" (join_data "Ann" 1234)) in
  let w := out_world (assign_id w "s_b" (Some "B") "u2") in
  let w := out_world (join_lobby w "s_b" (join_data "Bob" 1234)) in
  out_world (set_presenter w "s_h" {[ "id" := VStr "B" ]}).

(** A lobby created from a connection that never sent [assign_id]. *)
Definition unbound_host : World :=
  default empty_world (out_world <$> create_lobby empty_world "s_h" [1234]).

(** A member that never sent [assign_id] joins the lobby of [hosted]. *)
Definition unbound_member : World :=
  out_world (join_lobby hosted "s_a" (join_data "Ann" 1234)).

(** [G] creates lobby 5678 and Ann, a member of lobby 1234, joins it. *)
Definition two_lobbies : World :=
  let w := out_world (assign_id one_member "s_g" (Some "G") "u3") in
  let w := default w (out_world <$> create_lobby w "s_g" [5678]) in
  out_world (join_lobby w "s_a" (join_data "Ann" 5678)).

(** A lobby stored in phase VIEWING, with the roster of [written]. *)
Definition viewing : World :=
  match lobbies written !! VInt 1234 with
  | Some l =>
      set_lobbies
        (<[VInt 1234 := Lobby.set_current_state VIEWING l]> (lobbies written))
        written
  | None => written
  end.

End Scenario.

(** ** The remaining handlers *)

Definition set_drawing_data (b : option string) (p : Player.t) : Player.t :=
  Player.mk (Player.id p) (Player.username p) (Player.prompt_written p)
    (Player.prompt_given p) b (Player.voted_already p) (Player.voting_score p).

(** [cancel_game]: the payload is passed on as it is. *)
Definition cancel_game (w : World) (sid : string) (data : payload) : outcome :=
  let player_id := get_id_from_sid w sid in
  match get_lobby_and_player w player_id with
  | (Some lobby, _) =>
      Returned w
        ((λ player, mkEmit "cancel_game" data (get_sid_from_id w (Player.id player)))
           <$> Lobby.players lobby)
  | _ => Returned w []
  end.

(** [submit_drawing]: [array_buffer] is the blob sent, [None] for a null
    payload; [meta] is not read. *)
Definition submit_drawing (w : World) (sid : string)
    (array_buffer : option string) : outcome :=
  let player_id := get_id_from_sid w sid in
  match get_lobby_and_player w player_id with
  | (Some lobby, Some lobby_code) =>
      let ps :=
        (λ p, if decide (Player.id p = player_id)
              then set_drawing_data array_buffer p else p)
          <$> Lobby.players lobby in
      Returned
        (set_lobbies
           (<[VInt lobby_code := Lobby.set_players ps lobby]> (lobbies w)) w)
        []
  | _ => Returned w []
  end.

Definition end_drawing (w : World) (sid : string) : outcome :=
  let player_id := get_id_from_sid w sid in
  match get_lobby_and_player w player_id with
  | (Some lobby, _) =>
      Returned w
        ((λ p, mkEmit "end_drawing" (PValue VNone) (get_sid_from_id w (Player.id p)))
           <$> Lobby.players lobby)
  | _ => Returned w []
  end.

(** A value of the dict [player_data] of [start_presenting]. *)
Record PlayerData := mkPlayerData {
  pd_username : value;
  pd_prompt : value;
  pd_drawing_data : option string
}.

Definition blob_truthy (b : option string) : bool :=
  match b with
  | Some s => str_truthy s
  | None => false
  end.

(** The value built for a player in the dict comprehension of
    [start_presenting]; [b64encode] stands for
    [base64.b64encode(...).decode("utf-8")]. *)
Definition presented (b64encode : string → string) (p : Player.t)
  : PlayerData :=
  mkPlayerData (Player.username p) (Player.prompt_given p)
    (if blob_truthy (Player.drawing_data p)
     then b64encode <$> Player.drawing_data p else None).

(** The dict comprehension of [start_presenting]: a later player takes the
    key of an earlier one with the same id. *)
Definition player_data (b64encode : string → string) (ps : list Player.t)
  : gmap string PlayerData :=
  foldl (λ m p, <[Player.id p := presented b64encode p]> m) ∅ ps.

(** [start_presenting] changes nothing; the result is the payload of the
    [player_data] event sent to [sid], if one is sent. *)
Definition start_presenting (b64encode : string → string) (w : World)
    (sid : string) : option (gmap string PlayerData) :=
  let player_id := get_id_from_sid w sid in
  match get_lobby_and_player w player_id with
  | (Some lobby, _) => Some (player_data b64encode (Lobby.players lobby))
  | _ => None
  end.

(** ** All inbound events *)

Inductive inbound :=
  | InAssignId (sid : string) (data : option string) (uuid : string)
  | InDisconnect (sid : string)
  | InCreateLobby (sid : string) (samples : list Z)
  | InJoinLobby (sid : string) (data : gmap string value)
  | InCancelGame (sid : string) (data : payload)
  | InStartGame (sid : string)
  | InSubmitPrompt (sid : string) (data : gmap string value)
  | InHandOutPrompts (sid : string) (draws : list (list Prompt))
  | InStartDrawing (sid : string)
  | InSubmitDrawing (sid : string) (array_buffer : option string)
  | InEndDrawing (sid : string)
  | InStartPresenting (sid : string)
  | InSetPresenter (sid : string) (data : gmap string value)
  | InVotePresentation (sid : string) (data : gmap string value)
  | InDonePresenting (sid : string)
  | InSendReaction (sid : string) (reaction : value).

(** The world a handler leaves, by a return or by an exception; [None] when
    the handler is still in one of its [while True] loops. *)
Definition after (w : World) (ev : inbound) : option World :=
  match ev with
  | InAssignId sid data uuid => Some (out_world (assign_id w sid data uuid))
  | InDisconnect sid => Some (out_world (disconnect w sid))
  | InCreateLobby sid samples => out_world <$> create_lobby w sid samples
  | InJoinLobby sid data => Some (out_world (join_lobby w sid data))
  | InCancelGame sid data => Some (out_world (cancel_game w sid data))
  | InStartGame sid => Some (out_world (start_game w sid))
  | InSubmitPrompt sid data => Some (out_world (submit_prompt w sid data))
  | InHandOutPrompts sid draws => out_world <$> hand_out_prompts w sid draws
  | InStartDrawing sid => Some (out_world (start_drawing w sid))
  | InSubmitDrawing sid b => Some (out_world (submit_drawing w sid b))
  | InEndDrawing sid => Some (out_world (end_drawing w sid))
  | InStartPresenting sid => Some w
  | InSetPresenter sid data => Some (out_world (set_presenter w sid data))
  | InVotePresentation sid data => Some (out_world (vote_presentation w sid data))
  | InDonePresenting sid => Some (out_world (done_presenting w sid))
  | InSendReaction sid reaction => Some (out_world (send_reaction w sid reaction))
  end.

Fixpoint play (w : World) (evs : list inbound) : option World :=
  match evs with
  | [] => Some w
  | ev :: evs' =>
      match after w ev with
      | Some w' => play w' evs'
      | None => None
      end
  end.

(** The events of the game flow, as opposed to the four that bind
    connections and change the membership of lobbies. *)
Definition game_flow (ev : inbound) : bool :=
  match ev with
  | InAssignId _ _ _ | InDisconnect _ | InCreateLobby _ _ | InJoinLobby _ _ =>
      false
  | _ => true
  end.

Definition colliding (w : World) (ev : inbound) : Prop :=
  match ev with
  | InCreateLobby _ (code :: _) => is_Some (lobbies w !! VInt code)
  | _ => False
  end.

Fixpoint no_collision (w : World) (evs : list inbound) : Prop :=
  match evs with
  | [] => True
  | ev :: evs' =>
      ¬ colliding w ev
      ∧ match after w ev with
        | Some w' => no_collision w' evs'
        | None => True
        end
  end.

(** What a game-flow handler may do to the world: nothing, or replace one
    lobby by one with the same host, code and roster identities, in the same
    phase or in WRITING. *)
Definition same_membership (w w' : World) : Prop :=
  w' = w
  ∨ ∃ c l l',
      lobbies w !! VInt c = Some l
      ∧ Lobby.host_id l' = Lobby.host_id l
      ∧ Lobby.lobby_code l' = Lobby.lobby_code l
      ∧ Lobby.ids l' = Lobby.ids l
      ∧ (Lobby.current_state l' = Lobby.current_state l
         ∨ Lobby.current_state l' = WRITING)
      ∧ w' = set_lobbies (<[VInt c := l']> (lobbies w)) w.

(** Every lobby is stored under its code, holds at most 12 players and is in
    phase WAITING or WRITING. *)
Definition lobby_ok (k : value) (l : Lobby.t) : Prop :=
  k = VInt (Lobby.lobby_code l)
  ∧ (length (Lobby.players l) ≤ 12)%nat
  ∧ (Lobby.current_state l = WAITING ∨ Lobby.current_state l = WRITING).

Definition registry_ok (w : World) : Prop := map_Forall lobby_ok (lobbies w).

(** A lobby creation that has [c] among its samples. *)
Definition may_create (c : Z) (ev : inbound) : Prop :=
  match ev with
  | InCreateLobby _ samples => c ∈ samples
  | _ => False
  end.

(** No lobby in phase WAITING is stored under [k]: [join_lobby] with this
    code adds no player. *)
Definition not_joinable (k : value) (w : World) : Prop :=
  ∀ l, lobbies w !! k = Some l → Lobby.current_state l ≠ WAITING.

(** What [submit_prompt] does to a roster entry when the payload holds the
    prompt [v]. *)
Definition write_prompt (player_id : string) (v : value) (p : Player.t)
  : Player.t :=
  if decide (Player.id p = player_id) then Player.set_prompt_written v p else p.

(** A whole game: the host creates lobby 1234, Ann and Bob join, prompts are
    written and handed out, drawings sent, one round presented and voted on,
    and Ann leaves. *)
Module Trace.

Definition game : list inbound :=
  [ InAssignId "s_h" (Some "H") "u0";
    InCreateLobby "s_h" [1234];
    InAssignId "s_a" (Some "A") "u1";
    InJoinLobby "s_a" (Scenario.join_data "Ann" 1234);
    InAssignId "s_b" (Some "B") "u2";
    InJoinLobby "s_b" (Scenario.join_data "Bob" 1234);
    InStartGame "s_h";
    InSubmitPrompt "s_a" {[ "prompt" := VStr "cat" ]};
    InSubmitPrompt "s_b" {[ "prompt" := VStr "dog" ]};
    InHandOutPrompts "s_h" [Scenario.swapped];
    InStartDrawing "s_h";
    InSubmitDrawing "s_a" (Some "png");
    InEndDrawing "s_h";
    InStartPresenting "s_h";
    InSetPresenter "s_h" {[ "id" := VStr "B" ]};
    InVotePresentation "s_a" (Scenario.vote_data "B" 3);
    InDonePresenting "s_h";
    InDisconnect "s_a" ].

End Trace.

(** * Properties *)

(** ** Resolving the lobby of an identity *)

Lemma get_lobby_and_player_Some w i l c :
  get_lobby_and_player w i = (Some l, Some c) ↔
  player_to_lobby w !! i = Some c ∧ c ≠ 0 ∧ lobbies w !! VInt c = Some l.
Proof.
  unfold get_lobby_and_player.
  destruct (player_to_lobby w !! i) as [c'|] eqn:Hi.
  - destruct (Z.eqb_spec c' 0) as [->|Hc].
    + split; [discriminate | intros (? & ? & ?); congruence].
    + split.
      * intros [= Hl ->]. done.
      * intros ([= ->] & _ & ->). done.
  - split; [discriminate | intros (? & ? & ?); discriminate].
Qed.

(** ** Lobby codes *)

(** With integer keys only, the membership test on [str(code)] never finds
    anything: the first sample is returned, live or not. *)
Lemma generate_lobby_code_first m code rest :
  keyed_by_code m →
  Lobby._generate_lobby_code m (code :: rest) = Some code.
Proof.
  intros Hk. simpl.
  destruct (m !! VStr (pretty code)) as [l|] eqn:Hl; [|done].
  apply Hk in Hl. discriminate.
Qed.

Lemma create_lobby_keyed w sid samples o :
  keyed_by_code (lobbies w) →
  create_lobby w sid samples = Some o →
  keyed_by_code (lobbies (out_world o)).
Proof.
  intros Hk. unfold create_lobby, Lobby.init.
  destruct (Lobby._generate_lobby_code _ _) as [code|]; [|discriminate].
  intros [= <-]. simpl. by apply map_Forall_insert_2.
Qed.

(** C7: creating a lobby whose first sampled code is the code of a live lobby
    does not sample again: the new lobby takes that code and replaces the
    live lobby in the registry. *)
Theorem create_lobby_replaces_live_lobby w sid code rest l0 :
  keyed_by_code (lobbies w) →
  lobbies w !! VInt code = Some l0 →
  ∃ w', create_lobby w sid (code :: rest)
          = Some (Returned w' [mkEmit "lobby_created" (PValue (VInt code)) sid])
        ∧ lobbies w' !! VInt code
          = Some (Lobby.mk (get_id_from_sid w sid) code [] WAITING)
        ∧ ∀ k, k ≠ VInt code → lobbies w' !! k = lobbies w !! k.
Proof.
  intros Hk _. unfold create_lobby, Lobby.init.
  rewrite generate_lobby_code_first by done.
  eexists. split; [reflexivity|]. simpl. split.
  - by rewrite lookup_insert_eq.
  - intros k Hne. by rewrite lookup_insert_ne.
Qed.

Lemma create_lobby_replaces_live_lobby_witness :
  keyed_by_code (lobbies Scenario.two_members)
  ∧ lobbies Scenario.two_members !! VInt 1234
    = Some (Lobby.mk "H" 1234
              [Player.init "A" (VStr "Ann"); Player.init "B" (VStr "Bob")]
              WAITING)
  ∧ ∃ w', create_lobby Scenario.two_members "s_a" [1234; 5678]
          = Some (Returned w' [mkEmit "lobby_created" (PValue (VInt 1234)) "s_a"])
        ∧ lobbies w' !! VInt 1234 = Some (Lobby.mk "A" 1234 [] WAITING)
        ∧ ∀ k, k ≠ VInt 1234 →
               lobbies w' !! k = lobbies Scenario.two_members !! k.
Proof.
  assert (Hk : keyed_by_code (lobbies Scenario.two_members)).
  { apply (bool_decide_unpack _). vm_compute. exact I. }
  assert (Hl : lobbies Scenario.two_members !! VInt 1234
               = Some (Lobby.mk "H" 1234
                         [Player.init "A" (VStr "Ann");
                          Player.init "B" (VStr "Bob")] WAITING)).
  { vm_compute. reflexivity. }
  split; [exact Hk|]. split; [exact Hl|].
  exact (create_lobby_replaces_live_lobby
           Scenario.two_members "s_a" 1234 [5678] _ Hk Hl).
Defined.

(** ** Ending the game *)

(** C5: [done_presenting] leaves the world as it is, the stored phase of the
    sender's lobby included, and sends nothing: the [game_end] coroutine is
    built and dropped. *)
Theorem done_presenting_changes_nothing w sid :
  done_presenting w sid = Returned w [].
Proof.
  unfold done_presenting.
  by destruct (get_lobby_and_player w (get_id_from_sid w sid)) as [[l|] c].
Qed.

(** The list that would have been sent holds the username and the score of
    every roster member, in roster order. *)
Lemma player_stats_lookup ps i p :
  ps !! i = Some p →
  player_stats ps !! i = Some (Player.username p, Player.voting_score p).
Proof. intros Hp. unfold player_stats. by rewrite list_lookup_fmap, Hp. Qed.

Example done_presenting_after_start :
  let w := out_world (start_game Scenario.two_members "s_h") in
  (Lobby.current_state <$> lobbies w !! VInt 1234) = Some WRITING
  ∧ out_events (done_presenting w "s_h") = []
  ∧ (Lobby.current_state <$> lobbies (out_world (done_presenting w "s_h"))
                               !! VInt 1234) = Some WRITING.
Proof.
  repeat split; vm_compute; reflexivity.
Qed.

(** ** Reactions and payload shapes *)

(** C9: [send_reaction] from a sender whose identity resolves to a live lobby
    raises [AttributeError] and sends nothing. *)
Theorem send_reaction_member_raises w sid reaction l c :
  get_lobby_and_player w (get_id_from_sid w sid) = (Some l, Some c) →
  send_reaction w sid reaction = Raised (AttributeError "username") w [].
Proof. intros H. unfold send_reaction. by rewrite H. Qed.

Lemma send_reaction_member_raises_witness :
  get_lobby_and_player Scenario.one_member
    (get_id_from_sid Scenario.one_member "s_a")
  = (Some (Lobby.mk "H" 1234 [Player.init "A" (VStr "Ann")] WAITING), Some 1234)
  ∧ send_reaction Scenario.one_member "s_a" (VStr "heart")
    = Raised (AttributeError "username") Scenario.one_member [].
Proof.
  assert (H : get_lobby_and_player Scenario.one_member
                (get_id_from_sid Scenario.one_member "s_a")
              = (Some (Lobby.mk "H" 1234 [Player.init "A" (VStr "Ann")] WAITING),
                 Some 1234)).
  { vm_compute. reflexivity. }
  split; [exact H|].
  exact (send_reaction_member_raises
           Scenario.one_member "s_a" (VStr "heart") _ _ H).
Defined.

(** With a payload that lacks the key read by the handler, [submit_prompt]
    and [vote_presentation] raise [KeyError] for a sender in the roster. *)
Lemma submit_loop_missing_prompt w player_id data ps :
  data !! "prompt" = None →
  player_id ∈ Player.id <$> ps →
  submit_loop w player_id data ps = (Some (KeyError "prompt"), ps, []).
Proof.
  intros Hd. induction ps as [|p ps IH]; simpl.
  - intros H. by apply elem_of_nil in H.
  - intros H. destruct (decide (Player.id p = player_id)) as [Heq|Hne].
    + by rewrite Hd.
    + apply elem_of_cons in H as [H|H]; [congruence|].
      by rewrite IH.
Qed.

Lemma submit_prompt_missing_prompt_raises w sid data l c :
  get_lobby_and_player w (get_id_from_sid w sid) = (Some l, Some c) →
  get_id_from_sid w sid ∈ Lobby.ids l →
  data !! "prompt" = None →
  ∃ w', submit_prompt w sid data = Raised (KeyError "prompt") w' [].
Proof.
  intros Hl Hin Hd. unfold submit_prompt. rewrite Hl.
  rewrite submit_loop_missing_prompt by done. eauto.
Qed.

Lemma vote_loop_missing_id player_id data seen todo :
  data !! "id" = None →
  player_id ∈ Player.id <$> todo →
  vote_loop player_id data seen todo = (Some (KeyError "id"), seen ++ todo).
Proof.
  intros Hd. revert seen. induction todo as [|p todo IH]; intros seen; simpl.
  - intros H. by apply elem_of_nil in H.
  - intros H. destruct (decide (Player.id p = player_id)) as [Heq|Hne].
    + by rewrite Hd.
    + apply elem_of_cons in H as [H|H]; [congruence|].
      rewrite IH by done. by rewrite <-(assoc_L (++)).
Qed.

Lemma vote_presentation_missing_id_raises w sid data l c :
  get_lobby_and_player w (get_id_from_sid w sid) = (Some l, Some c) →
  get_id_from_sid w sid ∈ Lobby.ids l →
  data !! "id" = None →
  ∃ w', vote_presentation w sid data = Raised (KeyError "id") w' [].
Proof.
  intros Hl Hin Hd. unfold vote_presentation. rewrite Hl.
  rewrite vote_loop_missing_id by done. eauto.
Qed.

Example payload_shapes_raise :
  (∃ w', submit_prompt Scenario.one_member "s_a" ∅
         = Raised (KeyError "prompt") w' [])
  ∧ (∃ w', vote_presentation Scenario.one_member "s_a" ∅
           = Raised (KeyError "id") w' []).
Proof.
  split.
  - eapply submit_prompt_missing_prompt_raises; vm_compute; try reflexivity.
    apply list_elem_of_here.
  - eapply vote_presentation_missing_id_raises; vm_compute; try reflexivity.
    apply list_elem_of_here.
Qed.

(** ** Prompt redistribution *)

Lemma no_own_prompt_spec players pool :
  no_own_prompt players pool = true ↔
  ∀ i p, players !! i = Some p →
         ∃ q, pool !! i = Some q ∧ Player.id p ≠ owner q.
Proof.
  unfold no_own_prompt. rewrite forallb_forall. split.
  - intros H i p Hp.
    specialize (H i). rewrite Hp in H.
    destruct (pool !! i) as [q|].
    + exists q. split; [done|].
      eapply bool_decide_eq_true_1. apply H.
      apply in_seq. apply lookup_lt_Some in Hp. lia.
    + exfalso. assert (false = true); [|discriminate]. apply H.
      apply in_seq. apply lookup_lt_Some in Hp. lia.
  - intros H i Hi. apply in_seq in Hi.
    destruct (lookup_lt_is_Some_2 players i) as [p Hp]; [lia|].
    rewrite Hp. destruct (H i p Hp) as (q & -> & Hne).
    by apply bool_decide_eq_true_2.
Qed.

(** The loop exits only on a draw that passes the test. *)
Lemma shuffle_until_Some players draws pool :
  shuffle_until players draws = Some pool →
  pool ∈ draws ∧ no_own_prompt players pool = true.
Proof.
  induction draws as [|d draws IH]; simpl; [discriminate|].
  destruct (no_own_prompt players d) eqn:Hd.
  - intros [= <-]. split; [apply list_elem_of_here | done].
  - intros H. destruct (IH H). split; [by apply list_elem_of_further | done].
Qed.

(** The loop exits as soon as a draw passes the test. *)
Lemma shuffle_until_exits players draws :
  Exists (λ d, no_own_prompt players d = true) draws →
  is_Some (shuffle_until players draws).
Proof.
  induction 1 as [d draws Hd | d draws _ IH]; simpl.
  - rewrite Hd. eauto.
  - destruct (no_own_prompt players d); eauto.
Qed.

Lemma shuffle_until_None players draws :
  Forall (λ d, no_own_prompt players d = false) draws →
  shuffle_until players draws = None.
Proof. induction 1 as [|d draws Hd _ IH]; simpl; [done|]. by rewrite Hd. Qed.

Lemma rotate_perm {A} (n : nat) (l : list A) : rotate n l ≡ₚ l.
Proof.
  unfold rotate. rewrite Permutation_app_comm. by rewrite take_drop.
Qed.

(** A roster of two or more players with distinct ids has a shuffle that
    passes the test: the pool moved on by one place. *)
Lemma rotated_pool_accepted players :
  NoDup (Player.id <$> players) →
  (2 ≤ length players)%nat →
  rotate 1 (prompt_pool players) ≡ₚ prompt_pool players
  ∧ no_own_prompt players (rotate 1 (prompt_pool players)) = true.
Proof.
  intros Hnd Hlen. split; [apply rotate_perm|].
  apply no_own_prompt_spec. intros i p Hp.
  pose proof (lookup_lt_Some _ _ _ Hp) as Hi.
  assert (Hr : (rotate_nat_add 1 i (length players) < length players)%nat).
  { apply rotate_nat_add_lt. lia. }
  destruct (lookup_lt_is_Some_2 players _ Hr) as [p' Hp'].
  exists (mkPrompt (rotate_nat_add 1 i (length players))
            (Player.prompt_written p') (Player.id p')).
  split.
  - unfold prompt_pool.
    rewrite lookup_rotate_r by (by rewrite length_imap).
    by rewrite length_imap, list_lookup_imap, Hp'.
  - simpl. intros Heq.
    assert (i = rotate_nat_add 1 i (length players)) as Hfix.
    { eapply (NoDup_lookup (Player.id <$> players)); [done|..].
      - by rewrite list_lookup_fmap, Hp.
      - by rewrite list_lookup_fmap, Hp', Heq. }
    rewrite rotate_nat_add_alt in Hfix by lia.
    case_decide; lia.
Qed.

(** After the loop, every player holds the text of the prompt drawn at the
    player's position, whose owner is another identity. *)
Lemma give_prompts_deranged players pool i p' :
  no_own_prompt players pool = true →
  give_prompts pool players !! i = Some p' →
  ∃ q, pool !! i = Some q
       ∧ Player.prompt_given p' = text q
       ∧ owner q ≠ Player.id p'.
Proof.
  intros Hok Hp'. unfold give_prompts in Hp'.
  rewrite list_lookup_imap in Hp'.
  destruct (players !! i) as [p|] eqn:Hp; [|discriminate].
  injection Hp' as <-.
  destruct (proj1 (no_own_prompt_spec _ _) Hok i p Hp) as (q & Hq & Hne).
  exists q. rewrite Hq. simpl. split; [done|]. split; [done|]. congruence.
Qed.

(** With a draw that passes the test among the shuffles, [hand_out_prompts]
    returns, and every player of the lobby then holds the text of a prompt of
    the accepted pool whose owner is another identity. *)
Lemma hand_out_prompts_returns w sid l c draws :
  get_lobby_and_player w (get_id_from_sid w sid) = (Some l, Some c) →
  Exists (λ d, no_own_prompt (Lobby.players l) d = true) draws →
  ∃ pool w' out l',
    pool ∈ draws
    ∧ hand_out_prompts w sid draws = Some (Returned w' out)
    ∧ lobbies w' !! VInt c = Some l'
    ∧ Lobby.ids l' = Lobby.ids l
    ∧ ∀ i p', Lobby.players l' !! i = Some p' →
              ∃ q, pool !! i = Some q
                   ∧ Player.prompt_given p' = text q
                   ∧ owner q ≠ Player.id p'.
Proof.
  intros Hl Hex. unfold hand_out_prompts. rewrite Hl.
  destruct (shuffle_until_exits _ _ Hex) as [pool Hpool]. rewrite Hpool.
  apply shuffle_until_Some in Hpool as [Hin Hok].
  eexists pool, _, _, _. split; [done|]. split; [reflexivity|].
  split; [simpl; by rewrite lookup_insert_eq|]. split.
  - unfold Lobby.ids, give_prompts. simpl. apply list_eq. intros i.
    rewrite !list_lookup_fmap, list_lookup_imap.
    by destruct (Lobby.players l !! i).
  - intros i p' Hp'. by eapply give_prompts_deranged.
Qed.

Lemma single_player_pool_rejected p pool :
  pool ≡ₚ prompt_pool [p] → no_own_prompt [p] pool = false.
Proof.
  intros Hperm. apply Permutation_singleton_r in Hperm. subst pool.
  unfold no_own_prompt, prompt_pool. cbn [length seq forallb imap lookup list_lookup owner].
  rewrite bool_decide_eq_false_2; [done|]. intros H. by apply H.
Qed.

(** C1: with a roster of one player the shuffle loop of [hand_out_prompts]
    never exits, whatever the shuffles give: no draw is accepted. *)
Theorem hand_out_prompts_single_player_never_returns w sid l c p draws :
  get_lobby_and_player w (get_id_from_sid w sid) = (Some l, Some c) →
  Lobby.players l = [p] →
  Forall (λ d, d ≡ₚ prompt_pool (Lobby.players l)) draws →
  hand_out_prompts w sid draws = None.
Proof.
  intros Hl Hp Hdraws. unfold hand_out_prompts. rewrite Hl, Hp.
  rewrite shuffle_until_None; [done|].
  rewrite Hp in Hdraws.
  eapply Forall_impl; [exact Hdraws|]. intros d Hd.
  by apply single_player_pool_rejected.
Qed.

Lemma hand_out_prompts_single_player_never_returns_witness :
  let draws := replicate 5 [mkPrompt 0 (VStr "cat") "A"] in
  get_lobby_and_player Scenario.written_alone
    (get_id_from_sid Scenario.written_alone "s_h")
  = (Some (Lobby.mk "H" 1234
             [Player.set_prompt_written (VStr "cat")
                (Player.init "A" (VStr "Ann"))] WRITING), Some 1234)
  ∧ hand_out_prompts Scenario.written_alone "s_h" draws = None.
Proof.
  intros draws.
  assert (Hl : get_lobby_and_player Scenario.written_alone
                 (get_id_from_sid Scenario.written_alone "s_h")
               = (Some (Lobby.mk "H" 1234
                          [Player.set_prompt_written (VStr "cat")
                             (Player.init "A" (VStr "Ann"))] WRITING),
                  Some 1234)).
  { vm_compute. reflexivity. }
  split; [exact Hl|].
  refine (hand_out_prompts_single_player_never_returns
            Scenario.written_alone "s_h" _ _ _ draws Hl eq_refl _).
  repeat constructor.
Defined.

(** ** Stored phase *)

Lemma set_lobbies_same w l c :
  lobbies w !! VInt c = Some l →
  set_lobbies (<[VInt c := Lobby.set_players (Lobby.players l) l]> (lobbies w)) w
  = w.
Proof.
  intros Hl. destruct l as [h code ps st]. unfold Lobby.set_players. simpl.
  rewrite insert_id by done. by destruct w.
Qed.

(** [start_game] is the one handler that assigns [current_state]. *)
Lemma start_game_stores_writing w sid l c :
  get_lobby_and_player w (get_id_from_sid w sid) = (Some l, Some c) →
  lobbies (out_world (start_game w sid)) !! VInt c
  = Some (Lobby.set_current_state WRITING l).
Proof.
  intros Hl. unfold start_game. rewrite Hl. simpl. by rewrite lookup_insert_eq.
Qed.

Lemma start_drawing_world w sid : out_world (start_drawing w sid) = w.
Proof.
  unfold start_drawing.
  by destruct (get_lobby_and_player w (get_id_from_sid w sid)) as [[l|] c].
Qed.

Lemma hand_out_prompts_phase w sid draws o k :
  hand_out_prompts w sid draws = Some o →
  Lobby.current_state <$> lobbies (out_world o) !! k
  = Lobby.current_state <$> lobbies w !! k.
Proof.
  unfold hand_out_prompts.
  destruct (get_lobby_and_player w (get_id_from_sid w sid)) as [[l|] [c|]] eqn:Hl;
    try (intros [= <-]; done).
  apply get_lobby_and_player_Some in Hl as (_ & _ & Hl).
  destruct (shuffle_until (Lobby.players l) draws) as [pool|]; [|discriminate].
  intros [= <-]. simpl.
  destruct (decide (k = VInt c)) as [->|Hne].
  - by rewrite lookup_insert_eq, Hl.
  - by rewrite lookup_insert_ne.
Qed.

(** C6: neither [hand_out_prompts] nor [start_drawing] changes the stored
    phase of any lobby: after [hand_out_prompts] every lobby is in the phase
    it was in, and [start_drawing] leaves the world as it is. *)
Theorem hand_out_and_start_drawing_keep_phase w sid draws o :
  hand_out_prompts w sid draws = Some o →
  (∀ k, Lobby.current_state <$> lobbies (out_world o) !! k
        = Lobby.current_state <$> lobbies w !! k)
  ∧ out_world (start_drawing w sid) = w.
Proof.
  intros Ho. split.
  - intros k. by eapply hand_out_prompts_phase.
  - apply start_drawing_world.
Qed.

Lemma hand_out_and_start_drawing_keep_phase_witness :
  ∃ o, hand_out_prompts Scenario.written "s_h" [Scenario.swapped] = Some o
       ∧ (Lobby.current_state <$> lobbies Scenario.written !! VInt 1234)
         = Some WRITING
       ∧ (Lobby.current_state <$> lobbies (out_world o) !! VInt 1234)
         = Some WRITING
       ∧ out_world (start_drawing Scenario.written "s_h") = Scenario.written.
Proof.
  destruct (hand_out_prompts Scenario.written "s_h" [Scenario.swapped])
    as [o|] eqn:Ho; [|vm_compute in Ho; discriminate].
  exists o. split; [reflexivity|].
  destruct (hand_out_and_start_drawing_keep_phase
              Scenario.written "s_h" [Scenario.swapped] o Ho) as [Hk Hd].
  split; [vm_compute; reflexivity|]. split; [|exact Hd].
  rewrite Hk. vm_compute. reflexivity.
Defined.

(** The same on a lobby stored in phase VIEWING: [start_drawing] announces
    "drawing" to the roster and the stored phase stays VIEWING. *)
Example start_drawing_in_viewing :
  (Lobby.current_state <$> lobbies Scenario.viewing !! VInt 1234) = Some VIEWING
  ∧ (ev_name <$> out_events (start_drawing Scenario.viewing "s_h"))
    = ["drawing_started"; "game_state"; "game_state"]
  ∧ (Lobby.current_state
       <$> lobbies (out_world (start_drawing Scenario.viewing "s_h")) !! VInt 1234)
    = Some VIEWING.
Proof.
  rewrite start_drawing_world.
  split; [|split]; vm_compute; reflexivity.
Qed.

(** The scenario of the specification up to [hand_out_prompts]: each of the
    two players is given the text the other one wrote. *)
Example hand_out_prompts_two_players :
  (out_events <$> hand_out_prompts Scenario.written "s_h" [Scenario.swapped])
  = Some [mkEmit "give_prompt" (PValue (VStr "dog")) "s_a";
          mkEmit "give_prompt" (PValue (VStr "cat")) "s_b";
          mkEmit "start_viewing" (PValue (VStr "")) "s_h"].
Proof. vm_compute. reflexivity. Qed.

(** ** Voting *)

Section vote_loops.
Variables (voter : string) (data : gmap string value) (target : value).
Hypothesis Hid : data !! "id" = Some target.

(** No player has the target's id: the inner loop changes nothing and does
    not read the score. *)
Lemma add_score_no_target ps :
  (∀ t, t ∈ ps → VStr (Player.id t) ≠ target) →
  add_score target data ps = inr ps.
Proof.
  induction ps as [|t ps IH]; intros Hno; simpl; [done|].
  rewrite decide_False by (apply Hno, list_elem_of_here).
  rewrite IH; [done|]. intros t' Ht'. by apply Hno, list_elem_of_further.
Qed.

(** The score goes to the first player with the target's id. *)
Lemma add_score_at ps j q z :
  ps !! j = Some q →
  VStr (Player.id q) = target →
  (∀ k q', (k < j)%nat → ps !! k = Some q' → VStr (Player.id q') ≠ target) →
  data !! "score" = Some (VInt z) →
  add_score target data ps = inr (<[j := Player.add_voting_score z q]> ps).
Proof.
  intros Hq Ht Hfirst Hz. revert j Hq Hfirst.
  induction ps as [|t ps IH]; intros j Hq Hfirst; [done|].
  destruct j as [|j]; simpl in *.
  - injection Hq as ->. by rewrite decide_True, Hz.
  - rewrite decide_False by (apply (Hfirst 0%nat); [lia | done]).
    rewrite (IH j); [done | done |].
    intros k q' Hk Hq'. apply (Hfirst (S k)); [lia | done].
Qed.

(** Every entry of the voter is the target itself or has voted: the loop
    runs to its end and nothing changes. *)
Lemma vote_loop_blocked seen todo :
  (∀ p, p ∈ todo → Player.id p = voter →
        target = VStr voter ∨ Player.voted_already p = true) →
  vote_loop voter data seen todo = (None, seen ++ todo).
Proof.
  revert seen. induction todo as [|p todo IH]; intros seen Hb; simpl.
  - by rewrite (right_id_L [] (++)).
  - assert (Hrest : vote_loop voter data (seen ++ [p]) todo
                    = (None, seen ++ p :: todo)).
    { rewrite IH; [by rewrite <-(assoc_L (++))|].
      intros p' Hp'. by apply Hb, list_elem_of_further. }
    destruct (decide (Player.id p = voter)) as [Hp|Hp]; [|done].
    rewrite Hid.
    destruct (Hb p (list_elem_of_here _ _) Hp) as [->| ->].
    + rewrite bool_decide_eq_false_2; [done|].
      intros Hne. apply Hne. by rewrite Hp.
    + by rewrite andb_false_r.
Qed.

(** The first entry of the voter has not voted and the target is another
    id: the flag is set and the inner loop runs on the roster. *)
Lemma vote_loop_accept seen todo i p :
  target ≠ VStr voter →
  todo !! i = Some p →
  Player.id p = voter →
  Player.voted_already p = false →
  (∀ k p', (k < i)%nat → todo !! k = Some p' → Player.id p' ≠ voter) →
  vote_loop voter data seen todo =
    let roster := seen ++ <[i := Player.set_voted_already true p]> todo in
    match add_score target data roster with
    | inr roster' => (None, roster')
    | inl e => (Some e, roster)
    end.
Proof.
  intros Hne. revert seen i.
  induction todo as [|a todo IH]; intros seen i Hp Hv Hf Hfirst; [done|].
  destruct i as [|i]; simpl in *.
  - injection Hp as ->. rewrite decide_True by done. rewrite Hid.
    rewrite bool_decide_eq_true_2 by (by rewrite Hv).
    by rewrite Hf.
  - rewrite decide_False by (apply (Hfirst 0%nat); [lia | done]).
    rewrite (IH (seen ++ [a]) i); [| done | done | done |].
    + by rewrite <-(assoc_L (++)).
    + intros k p' Hk Hp'. apply (Hfirst (S k)); [lia | done].
Qed.

End vote_loops.

(** In a roster without duplicate ids, the entry of an id is the first and
    the only one. *)
Lemma roster_entry_first ps i p k p' :
  NoDup (Player.id <$> ps) →
  ps !! i = Some p → ps !! k = Some p' → Player.id p' = Player.id p → k = i.
Proof.
  intros Hnd Hp Hp' Heq.
  eapply (NoDup_lookup (Player.id <$> ps)); [done|..].
  - by rewrite list_lookup_fmap, Hp'.
  - by rewrite list_lookup_fmap, Hp, Heq.
Qed.

Lemma roster_entry_only ps i p p' :
  NoDup (Player.id <$> ps) →
  ps !! i = Some p → p' ∈ ps → Player.id p' = Player.id p → p' = p.
Proof.
  intros Hnd Hp Hin Heq.
  apply list_elem_of_lookup in Hin as [k Hk].
  assert (k = i) as -> by (by eapply roster_entry_first).
  congruence.
Qed.

(** A vote for oneself, or from a voter whose entry has voted, changes
    nothing and is acknowledged. *)
Lemma vote_ignored w sid data l c i p target :
  get_lobby_and_player w (get_id_from_sid w sid) = (Some l, Some c) →
  NoDup (Lobby.ids l) →
  Lobby.players l !! i = Some p →
  Player.id p = get_id_from_sid w sid →
  data !! "id" = Some target →
  target = VStr (get_id_from_sid w sid) ∨ Player.voted_already p = true →
  vote_presentation w sid data = Returned w [voted sid].
Proof.
  intros Hl Hnd Hp Hv Hid Hor. unfold vote_presentation. rewrite Hl.
  rewrite (vote_loop_blocked _ _ target Hid); simpl.
  - rewrite set_lobbies_same; [done|].
    by apply get_lobby_and_player_Some in Hl as (_ & _ & ?).
  - intros p' Hin Hp'. destruct Hor as [?|Hvoted]; [by left | right].
    assert (p' = p) as ->; [|done].
    eapply roster_entry_only; [exact Hnd | exact Hp | done | congruence].
Qed.

(** The first vote for another roster member sets the voter's flag and adds
    the submitted amount to that member's score. *)
Lemma vote_accepted w sid data l c i p j q z :
  get_lobby_and_player w (get_id_from_sid w sid) = (Some l, Some c) →
  NoDup (Lobby.ids l) →
  Lobby.players l !! i = Some p →
  Player.id p = get_id_from_sid w sid →
  Player.voted_already p = false →
  Lobby.players l !! j = Some q →
  Player.id q ≠ get_id_from_sid w sid →
  data !! "id" = Some (VStr (Player.id q)) →
  data !! "score" = Some (VInt z) →
  vote_presentation w sid data =
    Returned
      (set_lobbies
         (<[VInt c :=
              Lobby.set_players
                (<[j := Player.add_voting_score z q]>
                   (<[i := Player.set_voted_already true p]> (Lobby.players l)))
                l]> (lobbies w)) w)
      [voted sid].
Proof.
  intros Hl Hnd Hp Hv Hf Hq Hne Hid Hz. unfold vote_presentation. rewrite Hl.
  assert (Hij : i ≠ j) by (intros ->; congruence).
  rewrite (vote_loop_accept _ _ _ Hid [] _ i p); [| congruence | done.. |]; simpl.
  - rewrite (add_score_at _ _ _ j q z); [done | | done | | done].
    + by rewrite list_lookup_insert_ne.
    + intros k q' Hk Hq' [= Heq].
      destruct (decide (k = i)) as [->|Hki].
      * rewrite list_lookup_insert_eq in Hq' by (by eapply lookup_lt_Some).
        injection Hq' as <-. simpl in Heq. congruence.
      * rewrite list_lookup_insert_ne in Hq' by done.
        assert (k = j); [|lia]. by eapply roster_entry_first.
  - intros k p' Hk Hp' Heq.
    assert (k = i); [|lia].
    eapply roster_entry_first; [exact Hnd | exact Hp | exact Hp' | congruence].
Qed.

(** [set_presenter] opens a round: every flag of the roster is reset. *)
Lemma set_presenter_resets_flags w sid data l c :
  get_lobby_and_player w (get_id_from_sid w sid) = (Some l, Some c) →
  is_Some (data !! "id") →
  lobbies (out_world (set_presenter w sid data)) !! VInt c
  = Some (Lobby.set_players
            (Player.set_voted_already false <$> Lobby.players l) l).
Proof.
  intros Hl [t Ht]. unfold set_presenter. rewrite Hl, Ht. simpl.
  by rewrite lookup_insert_eq.
Qed.

(** C4 does not hold when the voter's identity is in the roster twice: the
    second vote of the same connection in the same round is counted. *)
Lemma second_vote_counts_for_duplicate_entry :
  let d := Scenario.vote_data "B" 3 in
  let w1 := out_world (vote_presentation Scenario.joined_twice "s_a" d) in
  let w2 := out_world (vote_presentation w1 "s_a" d) in
  let scores (w : World) :=
    (λ l, (λ p, (Player.id p, Player.voting_score p)) <$> Lobby.players l)
      <$> lobbies w !! VInt 1234 in
  scores Scenario.joined_twice = Some [("A", 0); ("A", 0); ("B", 0)]
  ∧ scores w1 = Some [("A", 0); ("A", 0); ("B", 3)]
  ∧ scores w2 = Some [("A", 0); ("A", 0); ("B", 6)].
Proof. split; [|split]; vm_compute; reflexivity. Qed.

(** C4, for a roster that holds every identity once: in a round opened by
    [set_presenter] (which resets every flag), a vote for oneself or a vote
    from a voter who has voted changes nothing; the first vote for another
    roster member adds the submitted amount to that member's score, changes
    no other score, and any later vote of the voter changes nothing; each of
    these votes is acknowledged with [voted]. *)
Theorem vote_once_per_round w sid data l c i p target :
  get_lobby_and_player w (get_id_from_sid w sid) = (Some l, Some c) →
  NoDup (Lobby.ids l) →
  Lobby.players l !! i = Some p →
  Player.id p = get_id_from_sid w sid →
  data !! "id" = Some target →
  (target = VStr (get_id_from_sid w sid) ∨ Player.voted_already p = true →
   vote_presentation w sid data = Returned w [voted sid])
  ∧ (∀ j q z,
       Player.voted_already p = false →
       Lobby.players l !! j = Some q →
       Player.id q ≠ get_id_from_sid w sid →
       target = VStr (Player.id q) →
       data !! "score" = Some (VInt z) →
       ∃ w', vote_presentation w sid data = Returned w' [voted sid]
             ∧ (Lobby.players <$> lobbies w' !! VInt c)
               = Some (<[j := Player.add_voting_score z q]>
                         (<[i := Player.set_voted_already true p]>
                            (Lobby.players l)))
             ∧ ∀ data', is_Some (data' !! "id") →
                        vote_presentation w' sid data' = Returned w' [voted sid])
  ∧ (∀ sid' data',
       get_lobby_and_player w (get_id_from_sid w sid') = (Some l, Some c) →
       is_Some (data' !! "id") →
       (Lobby.players <$> lobbies (out_world (set_presenter w sid' data')) !! VInt c)
       = Some (Player.set_voted_already false <$> Lobby.players l)).
Proof.
  intros Hl Hnd Hp Hv Hid. split; [|split].
  - intros Hor. by eapply vote_ignored.
  - intros j q z Hf Hq Hne -> Hz.
    eexists. split.
    { exact (vote_accepted w sid data l c i p j q z
               Hl Hnd Hp Hv Hf Hq Hne Hid Hz). }
    split; [simpl; by rewrite lookup_insert_eq|].
    intros data' [target' Hid'].
    assert (Hij : i ≠ j) by (intros ->; congruence).
    eapply (vote_ignored _ sid data' _ c i
              (Player.set_voted_already true p) target'); [| | | done | done | by right].
    + apply get_lobby_and_player_Some.
      apply get_lobby_and_player_Some in Hl as (Hi & Hc & _).
      split; [exact Hi|]. split; [exact Hc|].
      simpl. by rewrite lookup_insert_eq.
    + unfold Lobby.ids. simpl. rewrite !list_fmap_insert. simpl.
      rewrite (list_insert_id (Player.id <$> Lobby.players l) i)
        by (by rewrite list_lookup_fmap, Hp).
      rewrite (list_insert_id (Player.id <$> Lobby.players l) j)
        by (by rewrite list_lookup_fmap, Hq).
      exact Hnd.
    + simpl. rewrite list_lookup_insert_ne by done.
      apply list_lookup_insert_eq. by eapply lookup_lt_Some.
  - intros sid' data' Hl' Hid'.
    by rewrite (set_presenter_resets_flags _ _ _ l c).
Qed.

Lemma vote_once_per_round_witness :
  let w := Scenario.round in
  let a := Player.init "A" (VStr "Ann") in
  let b := Player.init "B" (VStr "Bob") in
  ∃ w', vote_presentation w "s_a" (Scenario.vote_data "B" 3)
        = Returned w' [voted "s_a"]
        ∧ (Lobby.players <$> lobbies w' !! VInt 1234)
          = Some [Player.set_voted_already true a; Player.add_voting_score 3 b]
        ∧ vote_presentation w' "s_a" (Scenario.vote_data "B" 3)
          = Returned w' [voted "s_a"].
Proof.
  intros w a b.
  assert (Hl : get_lobby_and_player w (get_id_from_sid w "s_a")
               = (Some (Lobby.mk "H" 1234 [a; b] WAITING), Some 1234)).
  { vm_compute. reflexivity. }
  assert (Hnd : NoDup (Lobby.ids (Lobby.mk "H" 1234 [a; b] WAITING))).
  { apply (bool_decide_unpack _). vm_compute. exact I. }
  destruct (vote_once_per_round w "s_a" (Scenario.vote_data "B" 3)
              _ 1234 0%nat a (VStr "B") Hl Hnd eq_refl eq_refl eq_refl)
    as (_ & Hfirst & _).
  destruct (Hfirst 1%nat b 3 eq_refl eq_refl) as (w' & Hvote & Hps & Hagain).
  - vm_compute. discriminate.
  - reflexivity.
  - reflexivity.
  - exists w'. split; [exact Hvote|]. split; [exact Hps|].
    apply Hagain. by eexists.
Defined.

(** A vote whose target is no roster member. *)
Lemma vote_loop_unknown_target voter data target seen todo :
  data !! "id" = Some target →
  target ≠ VStr voter →
  (∀ t, t ∈ seen ++ todo → VStr (Player.id t) ≠ target) →
  ∃ todo',
    vote_loop voter data seen todo = (None, seen ++ todo')
    ∧ Forall2 (λ a b, b = a ∨ b = Player.set_voted_already true a) todo todo'
    ∧ ∀ i p, todo !! i = Some p → Player.id p = voter →
             (∀ k p', (k < i)%nat → todo !! k = Some p' → Player.id p' ≠ voter) →
             ∃ p', todo' !! i = Some p' ∧ Player.voted_already p' = true.
Proof.
  intros Hid Hne. revert seen.
  induction todo as [|a todo IH]; intros seen Hno; simpl.
  - exists []. split; [by rewrite (right_id_L [] (++))|].
    split; [constructor | by intros i p ?].
  - assert (Hnext : ∀ t, t ∈ (seen ++ [a]) ++ todo → VStr (Player.id t) ≠ target).
    { intros t Ht. apply Hno. by rewrite <-(assoc_L (++)) in Ht. }
    destruct (IH (seen ++ [a]) Hnext) as (todo'' & Hrun & Hrel & Hflag).
    rewrite <-(assoc_L (++)) in Hrun. simpl in Hrun.
    destruct (decide (Player.id a = voter)) as [Ha|Ha].
    + rewrite Hid.
      rewrite bool_decide_eq_true_2 by (by rewrite Ha).
      destruct (Player.voted_already a) eqn:Hvoted; simpl.
      * exists (a :: todo''). split; [done|].
        split; [constructor; [by left | done]|].
        intros [|i] p Hp Hpv Hfirst; simpl in *.
        -- injection Hp as <-. eauto.
        -- exfalso. apply (Hfirst 0%nat a); [lia | done | done].
      * rewrite add_score_no_target.
        -- exists (Player.set_voted_already true a :: todo).
           split; [done|]. split.
           ++ constructor; [by right|].
              apply Forall_Forall2_diag, Forall_forall. intros; by left.
           ++ intros [|i] p Hp Hpv Hfirst; simpl in *.
              ** injection Hp as <-. eauto.
              ** exfalso. apply (Hfirst 0%nat a); [lia | done | done].
        -- intros t Ht. apply elem_of_app in Ht as [Ht|Ht].
           ++ apply Hno, elem_of_app. by left.
           ++ apply elem_of_cons in Ht as [->|Ht].
              ** simpl. apply Hno, elem_of_app. right. apply list_elem_of_here.
              ** apply Hno, elem_of_app. right. by apply list_elem_of_further.
    + exists (a :: todo''). split; [done|].
      split; [constructor; [by left | done]|].
      intros [|i] p Hp Hpv Hfirst; simpl in *.
      * injection Hp as <-. done.
      * apply (Hflag i p); [done | done |].
        intros k p' Hk Hp'. apply (Hfirst (S k)); [lia | done].
Qed.

(** Setting flags changes no other field of the roster. *)
Lemma flag_only_fmap {B} (f : Player.t → B) ps ps' :
  (∀ a, f (Player.set_voted_already true a) = f a) →
  Forall2 (λ a b, b = a ∨ b = Player.set_voted_already true a) ps ps' →
  f <$> ps' = f <$> ps.
Proof.
  intros Hf Hrel.
  induction Hrel as [|a b ps ps' [->| ->] _ IH]; [done|..];
    by rewrite !fmap_cons, ?Hf, IH.
Qed.

(** Whatever the roster, a vote of a roster member for an id that is neither
    the voter's nor the id of a roster member is acknowledged, changes no
    score, and leaves the flag of the voter's first entry set. *)
Lemma unknown_target_vote_flags_first_entry w sid data l c target :
  get_lobby_and_player w (get_id_from_sid w sid) = (Some l, Some c) →
  get_id_from_sid w sid ∈ Lobby.ids l →
  data !! "id" = Some target →
  target ≠ VStr (get_id_from_sid w sid) →
  (∀ t, t ∈ Lobby.players l → VStr (Player.id t) ≠ target) →
  ∃ w' l',
    vote_presentation w sid data = Returned w' [voted sid]
    ∧ lobbies w' !! VInt c = Some l'
    ∧ Lobby.ids l' = Lobby.ids l
    ∧ (Player.voting_score <$> Lobby.players l')
      = (Player.voting_score <$> Lobby.players l)
    ∧ ∃ i p',
        list_find (λ p, Player.id p = get_id_from_sid w sid) (Lobby.players l')
        = Some (i, p')
        ∧ Player.voted_already p' = true.
Proof.
  intros Hl Hin Hid Hne Hno.
  destruct (vote_loop_unknown_target (get_id_from_sid w sid) data target []
              (Lobby.players l) Hid Hne Hno) as (ps' & Hrun & Hrel & Hflag).
  simpl in Hrun.
  unfold vote_presentation. rewrite Hl, Hrun.
  eexists _, (Lobby.set_players ps' l).
  split; [reflexivity|]. split; [simpl; by rewrite lookup_insert_eq|].
  split; [by apply (flag_only_fmap Player.id)|].
  split; [by apply (flag_only_fmap Player.voting_score)|].
  simpl.
  apply list_elem_of_fmap in Hin as (p0 & Hp0 & Hin0).
  destruct (list_find_elem_of
              (λ p, Player.id p = get_id_from_sid w sid) _ p0 Hin0)
    as [[i p] Hfind]; [done|].
  apply list_find_Some in Hfind as (Hp & Hpv & Hfirst).
  destruct (Hflag i p Hp Hpv) as (p' & Hp' & Hvoted).
  { intros k q Hk Hq. by apply (Hfirst k q). }
  exists i, p'. split; [|exact Hvoted].
  apply list_find_Some. split; [exact Hp'|]. split.
  - destruct (Forall2_lookup_lr _ _ _ _ _ _ Hrel Hp Hp') as [->| ->]; done.
  - intros k q' Hq' Hk Hqv.
    destruct (Forall2_lookup_r _ _ _ _ _ Hrel Hq') as (q & Hq & Hor).
    apply (Hfirst k q Hq Hk). by destruct Hor as [->| ->].
Qed.

(** C10 does not hold when the voter's identity is in the roster twice: the
    vote for an unknown id sets the flag of the first entry only, and the
    next vote of the same connection in the round is counted. *)
Lemma unknown_target_vote_leaves_second_entry :
  let w := Scenario.joined_twice in
  let w1 := out_world (vote_presentation w "s_a" (Scenario.vote_data "Z" 5)) in
  let w2 := out_world (vote_presentation w1 "s_a" (Scenario.vote_data "B" 3)) in
  let roster (w : World) :=
    (λ l, (λ p, (Player.id p, Player.voted_already p, Player.voting_score p))
            <$> Lobby.players l) <$> lobbies w !! VInt 1234 in
  roster w = Some [("A", false, 0); ("A", false, 0); ("B", false, 0)]
  ∧ out_events (vote_presentation w "s_a" (Scenario.vote_data "Z" 5))
    = [voted "s_a"]
  ∧ roster w1 = Some [("A", true, 0); ("A", false, 0); ("B", false, 0)]
  ∧ roster w2 = Some [("A", true, 0); ("A", true, 0); ("B", false, 3)].
Proof. repeat split; vm_compute; reflexivity. Qed.

(** The host resolves to the lobby without a roster entry: its vote is
    acknowledged and there is no flag to set. *)
Example host_vote_sets_no_flag :
  let w := Scenario.round in
  vote_presentation w "s_h" (Scenario.vote_data "Z" 5) = Returned w [voted "s_h"].
Proof. vm_compute. reflexivity. Qed.

(** C10, for a voter with one roster entry: a vote for an id that is neither
    the voter's nor the id of a roster member is acknowledged with [voted],
    sets the voter's flag and changes nothing else, no score in particular;
    the vote is used up: any later vote of the voter in the round is
    acknowledged and changes nothing. *)
Theorem unknown_target_vote_is_consumed w sid data l c i p target :
  get_lobby_and_player w (get_id_from_sid w sid) = (Some l, Some c) →
  Lobby.players l !! i = Some p →
  Player.id p = get_id_from_sid w sid →
  (∀ k p', Lobby.players l !! k = Some p' →
           Player.id p' = get_id_from_sid w sid → k = i) →
  data !! "id" = Some target →
  target ≠ VStr (get_id_from_sid w sid) →
  (∀ t, t ∈ Lobby.players l → VStr (Player.id t) ≠ target) →
  let roster := <[i := Player.set_voted_already true p]> (Lobby.players l) in
  let w' :=
    set_lobbies (<[VInt c := Lobby.set_players roster l]> (lobbies w)) w in
  vote_presentation w sid data = Returned w' [voted sid]
  ∧ Player.voting_score <$> roster = Player.voting_score <$> Lobby.players l
  ∧ (∀ data', is_Some (data' !! "id") →
              vote_presentation w' sid data' = Returned w' [voted sid]).
Proof.
  intros Hl Hp Hv Honly Hid Hne Hno roster w'.
  assert (Hi : (i < length (Lobby.players l))%nat) by (by eapply lookup_lt_Some).
  assert (Hentry : roster !! i = Some (Player.set_voted_already true p)).
  { by apply list_lookup_insert_eq. }
  assert (Hroster : ∀ k q, roster !! k = Some q →
            ∃ q0, Lobby.players l !! k = Some q0
                  ∧ Player.id q = Player.id q0
                  ∧ Player.voting_score q = Player.voting_score q0).
  { intros k q Hq. destruct (decide (k = i)) as [->|Hk].
    - rewrite Hentry in Hq. injection Hq as <-. by exists p.
    - unfold roster in Hq. rewrite list_lookup_insert_ne in Hq by done.
      by exists q. }
  split; [|split].
  - unfold vote_presentation. rewrite Hl.
    destruct (Player.voted_already p) eqn:Hf.
    + rewrite (vote_loop_blocked (get_id_from_sid w sid) data target Hid).
      * simpl. unfold w', roster.
        assert (Player.set_voted_already true p = p) as ->
          by (destruct p; simpl in Hf; by subst).
        by rewrite list_insert_id.
      * intros p0 [k Hk]%list_elem_of_lookup Hp0. right.
        assert (k = i) as -> by (by eapply Honly). congruence.
    + rewrite (vote_loop_accept (get_id_from_sid w sid) data target Hid [] _ i p);
        [| done | done | done | done |]; simpl.
      * fold roster. rewrite (add_score_no_target data target); [done|].
        intros t [k Hk]%list_elem_of_lookup.
        destruct (Hroster k t Hk) as (q0 & Hq0 & -> & _).
        by apply Hno, list_elem_of_lookup_2 with k.
      * intros k p' Hk Hp' Hvp'. assert (k = i); [|lia]. by eapply Honly.
  - apply list_eq. intros k. rewrite !list_lookup_fmap.
    destruct (roster !! k) as [q|] eqn:Hq.
    + destruct (Hroster k q Hq) as (q0 & Hq0 & _ & Hs).
      rewrite Hq0. simpl. by rewrite Hs.
    + apply lookup_ge_None in Hq. unfold roster in Hq.
      rewrite length_insert in Hq. by rewrite lookup_ge_None_2.
  - intros data' [target' Hid'].
    assert (Hl' : get_lobby_and_player w' (get_id_from_sid w' sid)
                  = (Some (Lobby.set_players roster l), Some c)).
    { apply get_lobby_and_player_Some.
      apply get_lobby_and_player_Some in Hl as (Hidx & Hc & _).
      split; [exact Hidx|]. split; [exact Hc|].
      simpl. by rewrite lookup_insert_eq. }
    unfold vote_presentation. rewrite Hl'.
    change (get_id_from_sid w' sid) with (get_id_from_sid w sid).
    rewrite (vote_loop_blocked (get_id_from_sid w sid) data' target' Hid'); simpl.
    + apply f_equal2; [|done].
      apply (set_lobbies_same w' (Lobby.set_players roster l) c).
      simpl. by rewrite lookup_insert_eq.
    + intros p0 [k Hk]%list_elem_of_lookup Hp0. right.
      destruct (Hroster k p0 Hk) as (q0 & Hq0 & Hq0id & _).
      assert (k = i) as -> by (eapply Honly; [exact Hq0 | congruence]).
      rewrite Hentry in Hk. by injection Hk as <-.
Qed.

Lemma unknown_target_vote_is_consumed_witness :
  let w := Scenario.round in
  let a := Player.init "A" (VStr "Ann") in
  let b := Player.init "B" (VStr "Bob") in
  ∃ w', vote_presentation w "s_a" (Scenario.vote_data "Z" 5)
        = Returned w' [voted "s_a"]
        ∧ (Lobby.players <$> lobbies w' !! VInt 1234)
          = Some [Player.set_voted_already true a; b]
        ∧ vote_presentation w' "s_a" (Scenario.vote_data "B" 3)
          = Returned w' [voted "s_a"].
Proof.
  intros w a b.
  assert (Hl : get_lobby_and_player w (get_id_from_sid w "s_a")
               = (Some (Lobby.mk "H" 1234 [a; b] WAITING), Some 1234)).
  { vm_compute. reflexivity. }
  assert (Hvoter : get_id_from_sid w "s_a" = "A") by (vm_compute; reflexivity).
  assert (Honly : ∀ k p', [a; b] !! k = Some p' →
                          Player.id p' = get_id_from_sid w "s_a" → k = 0%nat).
  { rewrite Hvoter. intros [|[|k]] p' Hk Hp'; [done | | done].
    injection Hk as <-. discriminate. }
  assert (Hne : VStr "Z" ≠ VStr (get_id_from_sid w "s_a")).
  { rewrite Hvoter. discriminate. }
  assert (Hno : ∀ t, t ∈ [a; b] → VStr (Player.id t) ≠ VStr "Z").
  { intros t [->|Ht]%elem_of_cons; [discriminate|].
    apply list_elem_of_singleton in Ht as ->. discriminate. }
  destruct (unknown_target_vote_is_consumed w "s_a" (Scenario.vote_data "Z" 5)
              _ 1234 0%nat a (VStr "Z") Hl eq_refl eq_refl Honly eq_refl Hne Hno)
    as (Hrun & _ & Hagain).
  eexists. split; [exact Hrun|]. split.
  - simpl. by rewrite lookup_insert_eq.
  - apply Hagain. by eexists.
Defined.

(** ** Joining *)

(** C3 fails for the members: when Bob joins the lobby Ann is in, the roster
    update goes to the host's connection and Ann's connection gets nothing. *)
Lemma join_lobby_updates_host_only :
  let w := Scenario.b_connected in
  let out := out_events (join_lobby w "s_b" (Scenario.join_data "Bob" 1234)) in
  (Lobby.ids <$> lobbies w !! VInt 1234) = Some ["A"]
  ∧ get_sid_from_id w "A" = "s_a"
  ∧ ((λ e, (ev_name e, ev_to e)) <$> out)
    = [("joined_lobby", "s_b"); ("players_update", "s_h")]
  ∧ filter (λ e, ev_to e = "s_a") out = [].
Proof. repeat split; vm_compute; reflexivity. Qed.

(** The sibling path: when Bob leaves that lobby again, [disconnect] sends
    the roster update to the host's connection and to Ann's. *)
Example disconnect_updates_every_member :
  let out := out_events (disconnect Scenario.two_members "s_b") in
  (Lobby.ids <$> lobbies Scenario.two_members !! VInt 1234) = Some ["A"; "B"]
  ∧ ((λ e, (ev_name e, ev_to e)) <$> out)
    = [("players_update", "s_h"); ("players_update", "s_a")].
Proof. split; vm_compute; reflexivity. Qed.

(** C3, what [join_lobby] does on every input: it answers with one [error]
    to the sender, and changes nothing, exactly when the validation fails;
    otherwise the player is appended to the roster, which stays within 12,
    and the events are [joined_lobby] with the code to the sender and one
    [players_update] with the new roster to the connection bound to the
    host, if there is one.  The list of events ends there: [on_join] has no
    loop over the roster, so the members the claim names are sent nothing by
    a join, while the member branch of [disconnect] sends them the update. *)
Theorem join_lobby_outcome w sid data :
  (join_rejected w data →
   ∃ msg, join_lobby w sid data = Returned w [error msg sid])
  ∧ (¬ join_rejected w data →
     ∃ l, lobbies w !! dict_get data "lobby_code" = Some l
          ∧ let player :=
              Player.init (get_id_from_sid w sid) (dict_get data "username") in
            let l' := Lobby.set_players (Lobby.players l ++ [player]) l in
            let host_sid := id_to_sid w !! Lobby.host_id l in
            join_lobby w sid data
            = Returned
                (mkWorld (<[dict_get data "lobby_code" := l']> (lobbies w))
                   (<[Player.id player := Lobby.lobby_code l]> (player_to_lobby w))
                   (sid_to_id w) (id_to_sid w))
                (mkEmit "joined_lobby" (PValue (VInt (Lobby.lobby_code l))) sid
                 :: (if opt_truthy host_sid
                     then [mkEmit "players_update"
                             (PPlayers (Player.get_as_dict <$> Lobby.players l'))
                             (default "" host_sid)]
                     else []))
            ∧ (length (Lobby.players l') ≤ 12)%nat).
Proof.
  unfold join_rejected, join_lobby.
  destruct (truthy (dict_get data "username")) eqn:Hu; simpl.
  2: { split; [eauto|]. intros H. exfalso. apply H. by left. }
  destruct (truthy (dict_get data "lobby_code")) eqn:Hc; simpl.
  2: { split; [eauto|]. intros H. exfalso. apply H. right. by left. }
  destruct (lobbies w !! dict_get data "lobby_code") as [l|] eqn:Hl.
  2: { split; [eauto|]. intros H. exfalso. apply H. right. right. by left. }
  destruct (decide (Lobby.current_state l ≠ WAITING)) as [Hs|Hs].
  { split; [eauto|]. intros H. exfalso. apply H. do 3 right. eauto. }
  destruct (decide (12 ≤ length (Lobby.players l))%nat) as [Hn|Hn].
  { split; [eauto|]. intros H. exfalso. apply H. do 3 right. eauto. }
  split.
  - intros [H|[H|[H|(l0 & [= <-] & [H|H])]]]; done.
  - intros _. exists l. split; [done|]. simpl. split; [done|].
    rewrite length_app. simpl. lia.
Qed.

Lemma join_lobby_outcome_witness :
  let w := Scenario.b_connected in
  let data := Scenario.join_data "Bob" 1234 in
  let ann := Player.init "A" (VStr "Ann") in
  let bob := Player.init "B" (VStr "Bob") in
  (Lobby.players <$> lobbies w !! VInt 1234) = Some [ann]
  ∧ get_sid_from_id w "A" = "s_a"
  ∧ ¬ join_rejected w data
  ∧ out_events (join_lobby w "s_b" data)
    = [mkEmit "joined_lobby" (PValue (VInt 1234)) "s_b";
       mkEmit "players_update"
         (PPlayers [Player.get_as_dict ann; Player.get_as_dict bob]) "s_h"].
Proof.
  intros w data ann bob.
  assert (Hl : lobbies w !! dict_get data "lobby_code"
               = Some (Lobby.mk "H" 1234 [ann] WAITING)).
  { vm_compute. reflexivity. }
  assert (Hok : ¬ join_rejected w data).
  { intros [H|[H|[H|(l & Hl' & [H|H])]]]; try (vm_compute in H; discriminate).
    - rewrite Hl in Hl'. injection Hl' as <-. by apply H.
    - rewrite Hl in Hl'. injection Hl' as <-. simpl in H. lia. }
  split; [vm_compute; reflexivity|]. split; [vm_compute; reflexivity|].
  split; [exact Hok|].
  destruct (proj2 (join_lobby_outcome w "s_b" data) Hok)
    as (l & Hl' & Hrun & _).
  rewrite Hl in Hl'. injection Hl' as <-.
  rewrite Hrun. vm_compute. reflexivity.
Defined.

(** A join never takes a roster beyond the capacity. *)
Lemma join_lobby_rosters_bounded w sid data :
  rosters_bounded w → rosters_bounded (out_world (join_lobby w sid data)).
Proof.
  intros Hb. unfold join_lobby.
  destruct (negb _ || negb _); [done|].
  destruct (lobbies w !! dict_get data "lobby_code") as [l|]; [|done].
  destruct (decide (Lobby.current_state l ≠ WAITING)); [done|].
  destruct (decide (12 ≤ length (Lobby.players l))%nat); [done|].
  simpl. apply map_Forall_insert_2; [|done].
  simpl. rewrite length_app. simpl. lia.
Qed.

Example join_lobby_answers :
  let w := Scenario.b_connected in
  out_events (join_lobby w "s_b" {[ "username" := VStr "Bob" ]})
  = [error "Username and lobby_code are required!" "s_b"]
  ∧ out_events (join_lobby w "s_b" (Scenario.join_data "Bob" 4321))
    = [error "Lobby not found!" "s_b"]
  ∧ out_events (join_lobby w "s_b"
                  {[ "username" := VStr "Bob"; "lobby_code" := VStr "1234" ]})
    = [error "Lobby not found!" "s_b"]
  ∧ out_events (join_lobby (out_world (start_game w "s_h")) "s_b"
                  (Scenario.join_data "Bob" 1234))
    = [error "Game is already started!" "s_b"].
Proof. repeat split; vm_compute; reflexivity. Qed.

(** ** Host disconnect *)

(** Who is notified: the members other than the host that are bound to a
    connection, each once. *)
Lemma notified_elem host m ids i :
  i ∈ notified host m ids ↔ i ∈ ids ∧ i ≠ host ∧ opt_truthy (m !! i) = true.
Proof.
  revert m. induction ids as [|a ids IH]; intros m; simpl.
  - split; [intros H | intros [H _]]; by apply elem_of_nil in H.
  - destruct (decide (a ≠ host)) as [Ha|Ha].
    + assert (Hrest : i ∈ notified host (delete a m) ids
                      ↔ i ∈ ids ∧ i ≠ host ∧ i ≠ a ∧ opt_truthy (m !! i) = true).
      { rewrite IH. split.
        - intros (Hi & Hh & Ht). destruct (decide (i = a)) as [->|Hia].
          + by rewrite lookup_delete_eq in Ht.
          + by rewrite lookup_delete_ne in Ht.
        - intros (Hi & Hh & Hia & Ht). by rewrite lookup_delete_ne. }
      destruct (opt_truthy (m !! a)) eqn:Hta.
      * rewrite elem_of_cons, Hrest, elem_of_cons. split.
        -- intros [->|(Hi & Hh & _ & Ht)]; [by auto | by auto].
        -- intros (Hi & Hh & Ht).
           destruct (decide (i = a)) as [->|Hia]; [by left | right].
           destruct Hi as [->|Hi]; done.
      * rewrite Hrest, elem_of_cons. split.
        -- intros (Hi & Hh & _ & Ht). auto.
        -- intros ([->|Hi] & Hh & Ht); [congruence|].
           split; [done|]. split; [done|]. split; [congruence | done].
    + apply dec_stable in Ha. subst a. rewrite IH, elem_of_cons. split.
      * intros (Hi & Hh & Ht). auto.
      * intros ([->|Hi] & Hh & Ht); done.
Qed.

Lemma notified_NoDup host m ids : NoDup (notified host m ids).
Proof.
  revert m. induction ids as [|a ids IH]; intros m; simpl; [constructor|].
  destruct (decide (a ≠ host)); [|done].
  destruct (opt_truthy (m !! a)); [|done].
  constructor; [|done].
  rewrite notified_elem, lookup_delete_eq. by intros (_ & _ & ?).
Qed.

(** The host's own binding plays no part. *)
Lemma notified_delete_host host m ids :
  notified host (delete host m) ids = notified host m ids.
Proof.
  revert m. induction ids as [|a ids IH]; intros m; simpl; [done|].
  destruct (decide (a ≠ host)) as [Ha|Ha]; [|done].
  rewrite lookup_delete_ne by done.
  by rewrite (delete_delete m a host), IH.
Qed.

Lemma notice_notified_delete host m a ids :
  notice (delete a m) <$> notified host (delete a m) ids
  = notice m <$> notified host (delete a m) ids.
Proof.
  apply list_fmap_ext. intros k i Hi.
  apply list_elem_of_lookup_2, notified_elem in Hi as (_ & _ & Ht).
  unfold notice. destruct (decide (i = a)) as [->|Hne].
  - by rewrite lookup_delete_eq in Ht.
  - by rewrite lookup_delete_ne.
Qed.

(** The loop over the roster of a lobby whose host left. *)
Lemma orphan_members_spec host ps w :
  ∃ w', orphan_members host ps w
        = (w', notice (id_to_sid w) <$> notified host (id_to_sid w) (Player.id <$> ps))
        ∧ lobbies w' = lobbies w
        ∧ (∀ i, player_to_lobby w' !! i = None
                ∨ (player_to_lobby w' !! i = player_to_lobby w !! i
                   ∧ (i ∈ Player.id <$> ps → i = host))).
Proof.
  revert w. induction ps as [|p ps IH]; intros w; simpl.
  - exists w. split; [done|]. split; [done|]. intros i. right. split; [done|].
    intros H. by apply elem_of_nil in H.
  - destruct (decide (Player.id p ≠ host)) as [Hp|Hp].
    + match goal with
      | |- context [orphan_members host ps ?w1] =>
          destruct (IH w1) as (w' & Hrun & Hlob & Hidx)
      end.
      rewrite Hrun. exists w'.
      assert (Hlob' : lobbies w' = lobbies w).
      { rewrite Hlob. by destruct (id_to_sid w !! Player.id p). }
      assert (Hidx' : ∀ i, player_to_lobby w' !! i = None
                ∨ (player_to_lobby w' !! i
                   = delete (Player.id p) (player_to_lobby w) !! i
                   ∧ (i ∈ Player.id <$> ps → i = host))).
      { intros i. destruct (Hidx i) as [Hn|[He Hin]]; [by left | right].
        split; [|done]. rewrite He. by destruct (id_to_sid w !! Player.id p). }
      split; [|split; [done|]].
      * destruct (id_to_sid w !! Player.id p) as [s|] eqn:Hs; simpl in *;
          rewrite notice_notified_delete; [|done].
        destruct (str_truthy s); [|done].
        rewrite fmap_cons. unfold notice at 2. by rewrite Hs.
      * intros i. destruct (Hidx' i) as [Hn|[He Hin]]; [by left|].
        destruct (decide (i = Player.id p)) as [->|Hne].
        -- left. by rewrite He, lookup_delete_eq.
        -- right. rewrite lookup_delete_ne in He by done. split; [done|].
           intros [->|Hi]%elem_of_cons; [done | by apply Hin].
    + apply dec_stable in Hp.
      destruct (IH w) as (w' & Hrun & Hlob & Hidx).
      exists w'. split; [done|]. split; [done|].
      intros i. destruct (Hidx i) as [Hn|[He Hin]]; [by left|].
      right. split; [done|].
      intros [->|Hi]%elem_of_cons; [done | by apply Hin].
Qed.

(** C2 does not hold for a host, or a member, whose connection never sent
    [assign_id]: the disconnect of such a host leaves the lobby in the
    registry, and such a member is sent nothing when the host leaves. *)
Lemma host_disconnect_without_binding :
  (let w := Scenario.unbound_host in
   (Lobby.host_id <$> lobbies w !! VInt 1234) = Some "s_h"
   ∧ get_lobby_and_player w (get_id_from_sid w "s_h")
     = (Some (Lobby.mk "s_h" 1234 [] WAITING), Some 1234)
   ∧ out_events (disconnect w "s_h") = []
   ∧ lobbies (out_world (disconnect w "s_h")) !! VInt 1234
     = Some (Lobby.mk "s_h" 1234 [] WAITING)
   ∧ player_to_lobby (out_world (disconnect w "s_h")) !! "s_h" = Some 1234)
  ∧ (let w := Scenario.unbound_member in
     (Lobby.ids <$> lobbies w !! VInt 1234) = Some ["s_a"]
     ∧ (Lobby.host_id <$> lobbies w !! VInt 1234) = Some "H"
     ∧ get_id_from_sid w "s_h" = "H"
     ∧ get_sid_from_id w "s_a" = "s_a"
     ∧ out_events (disconnect w "s_h") = []
     ∧ lobbies (out_world (disconnect w "s_h")) !! VInt 1234 = None).
Proof. repeat split; vm_compute; reflexivity. Qed.

(** C2, for a host bound by [assign_id] whose identity the reverse index maps
    to the lobby: the disconnect of the host's connection removes the lobby
    from the registry; one [disconnected] message goes to the connection of
    every roster member other than the host that is bound to a connection,
    one per such identity; afterwards neither the host's identity nor any
    identity of the roster is in the reverse index. *)
Theorem host_disconnect_teardown w sid h c l :
  sid_to_id w !! sid = Some h →
  str_truthy h = true →
  get_lobby_and_player w h = (Some l, Some c) →
  Lobby.host_id l = h →
  let gone := notified h (id_to_sid w) (Lobby.ids l) in
  ∃ w', disconnect w sid = Returned w' (notice (id_to_sid w) <$> gone)
        ∧ lobbies w' = delete (VInt c) (lobbies w)
        ∧ NoDup gone
        ∧ (∀ i, i ∈ gone ↔
                i ∈ Lobby.ids l ∧ i ≠ h ∧ opt_truthy (id_to_sid w !! i) = true)
        ∧ (∀ i, i = h ∨ i ∈ Lobby.ids l → player_to_lobby w' !! i = None).
Proof.
  intros Hsid Hh Hl Hhost gone. unfold disconnect. rewrite Hsid, Hh. simpl.
  assert (Hl' : get_lobby_and_player
                  (set_sid_to_id (delete sid (sid_to_id w)) w) h
                = (Some l, Some c)) by exact Hl.
  rewrite Hl'. rewrite decide_True by done.
  match goal with
  | |- context [orphan_members h (Lobby.players l) ?w1] =>
      destruct (orphan_members_spec h (Lobby.players l) w1)
        as (w' & Hrun & Hlob & Hidx)
  end.
  rewrite Hrun. simpl in *. eexists. split; [|split; [|split; [|split]]].
  - f_equal. rewrite notified_delete_host.
    apply list_fmap_ext. intros k i Hi.
    apply list_elem_of_lookup_2, notified_elem in Hi as (_ & Hne & _).
    unfold notice. by rewrite lookup_delete_ne.
  - simpl. by rewrite Hlob.
  - apply notified_NoDup.
  - intros i. apply notified_elem.
  - intros i Hi. simpl.
    destruct (Hidx i) as [Hn|[He Hin]]; [done|].
    rewrite He. destruct (decide (i = h)) as [->|Hne].
    + apply lookup_delete_eq.
    + destruct Hi as [?|Hi]; [done|]. by destruct (Hne (Hin Hi)).
Qed.

Lemma host_disconnect_teardown_witness :
  let w := Scenario.two_members in
  sid_to_id w !! "s_h" = Some "H"
  ∧ (Lobby.ids <$> lobbies w !! VInt 1234) = Some ["A"; "B"]
  ∧ ∃ w', disconnect w "s_h"
          = Returned w' [mkEmit "disconnected" host_gone "s_a";
                         mkEmit "disconnected" host_gone "s_b"]
          ∧ lobbies w' = delete (VInt 1234) (lobbies w)
          ∧ (∀ i, i = "H" ∨ i ∈ ["A"; "B"] → player_to_lobby w' !! i = None).
Proof.
  intros w.
  assert (Hsid : sid_to_id w !! "s_h" = Some "H") by (vm_compute; reflexivity).
  assert (Hl : get_lobby_and_player w "H"
               = (Some (Lobby.mk "H" 1234
                          [Player.init "A" (VStr "Ann");
                           Player.init "B" (VStr "Bob")] WAITING), Some 1234)).
  { vm_compute. reflexivity. }
  split; [exact Hsid|]. split; [vm_compute; reflexivity|].
  destruct (host_disconnect_teardown w "s_h" "H" 1234 _ Hsid eq_refl Hl eq_refl)
    as (w' & Hrun & Hlob & _ & _ & Hidx).
  exists w'. split; [|split; [exact Hlob | exact Hidx]].
  rewrite Hrun. f_equal.
Defined.

(** ** Reverse index *)

(** C8 does not hold for the host: after [create_lobby] the host's identity
    is in the reverse index and in no roster. *)
Lemma host_indexed_outside_roster : ¬ index_bidirectional Scenario.hosted.
Proof.
  intros Hbi. destruct (Hbi "H") as [Hfw _].
  destruct Hfw as (k & l & Hl & Hin).
  - vm_compute. eauto.
  - assert (Hempty : map_Forall (λ _ l, Lobby.ids l = [])
                       (lobbies Scenario.hosted)).
    { apply (bool_decide_unpack _). vm_compute. exact I. }
    apply Hempty in Hl. rewrite Hl in Hin. by apply elem_of_nil in Hin.
Qed.

(** Nor is an identity kept to one roster: [join_lobby] does not look the
    sender up in the reverse index. *)
Example member_of_two_rosters :
  let w := Scenario.two_lobbies in
  (Lobby.ids <$> lobbies w !! VInt 1234) = Some ["A"]
  ∧ (Lobby.ids <$> lobbies w !! VInt 5678) = Some ["A"]
  ∧ player_to_lobby w !! "A" = Some 5678.
Proof. repeat split; vm_compute; reflexivity. Qed.

Lemma elem_of_remove_first i player_id ps :
  i ≠ player_id →
  i ∈ Player.id <$> ps →
  i ∈ Player.id <$> Lobby.remove_first player_id ps.
Proof.
  intros Hne. induction ps as [|p ps IH]; [done|].
  rewrite fmap_cons, elem_of_cons. cbn [Lobby.remove_first].
  intros [->|Hi].
  - rewrite decide_False by done. rewrite fmap_cons. apply list_elem_of_here.
  - destruct (decide (Player.id p = player_id)); [done|].
    rewrite fmap_cons. by apply list_elem_of_further, IH.
Qed.

Lemma remove_player_keeps l player_id l' out :
  Lobby.remove_player l player_id None = (l', out) →
  Lobby.host_id l' = Lobby.host_id l
  ∧ Lobby.lobby_code l' = Lobby.lobby_code l
  ∧ ∀ i, i ≠ player_id → i ∈ Lobby.ids l → i ∈ Lobby.ids l'.
Proof.
  unfold Lobby.remove_player.
  destruct (find _ _); intros [= <- <-]; simpl; [|done].
  split; [done|]. split; [done|].
  intros i Hne Hi. by apply elem_of_remove_first.
Qed.

Section index.
Variable w : World.
Hypothesis Hkeyed : keyed_by_code (lobbies w).
Hypothesis Hsound : index_sound w.

Lemma index_consistent_assign_id sid data uuid :
  index_consistent (out_world (assign_id w sid data uuid)).
Proof. done. Qed.

Lemma index_consistent_create_lobby sid samples o :
  ¬ collides w (EvCreateLobby sid samples) →
  create_lobby w sid samples = Some o →
  index_consistent (out_world o).
Proof.
  intros Hfresh Ho. split; [by eapply create_lobby_keyed|].
  revert Ho. unfold create_lobby, Lobby.init.
  destruct samples as [|code rest]; [done|].
  rewrite generate_lobby_code_first by done.
  intros [= <-] i c. simpl.
  assert (Hnone : lobbies w !! VInt code = None).
  { destruct (lobbies w !! VInt code) eqn:E; [|done].
    destruct Hfresh. by eexists. }
  destruct (decide (i = get_id_from_sid w sid)) as [->|Hne].
  - rewrite lookup_insert_eq. intros [= <-].
    eexists. rewrite lookup_insert_eq. split; [done | by left].
  - rewrite lookup_insert_ne by done. intros Hi.
    destruct (Hsound i c Hi) as (l & Hl & Hor).
    exists l. split; [|done].
    rewrite lookup_insert_ne; [done|]. intros [= ->]. congruence.
Qed.

Lemma index_consistent_join_lobby sid data :
  index_consistent (out_world (join_lobby w sid data)).
Proof.
  unfold join_lobby.
  destruct (negb _ || negb _); [done|].
  destruct (lobbies w !! dict_get data "lobby_code") as [l|] eqn:Hl; [|done].
  destruct (decide (Lobby.current_state l ≠ WAITING)); [done|].
  destruct (decide (12 ≤ length (Lobby.players l))%nat); [done|].
  pose proof (Hkeyed _ _ Hl) as Hkey. simpl in Hkey.
  rewrite Hkey in *. simpl. split; simpl.
  - by apply map_Forall_insert_2.
  - intros i c. simpl.
    destruct (decide (i = get_id_from_sid w sid)) as [->|Hne].
    + rewrite lookup_insert_eq. intros [= <-].
      eexists. rewrite lookup_insert_eq. split; [done | right].
      unfold Lobby.ids. simpl. rewrite fmap_app.
      apply elem_of_app. right. apply list_elem_of_here.
    + rewrite lookup_insert_ne by done. intros Hi.
      destruct (Hsound i c Hi) as (l0 & Hl0 & Hor).
      destruct (decide (c = Lobby.lobby_code l)) as [->|Hc].
      * rewrite Hl in Hl0. injection Hl0 as <-.
        eexists. rewrite lookup_insert_eq. split; [done|].
        destruct Hor as [?|Hin]; [by left | right].
        unfold Lobby.ids. simpl. rewrite fmap_app.
        apply elem_of_app. by left.
      * exists l0. split; [|done].
        rewrite lookup_insert_ne; [done | congruence].
Qed.

Lemma index_consistent_disconnect sid :
  index_consistent (out_world (disconnect w sid)).
Proof.
  assert (Hpop : ∀ sids ids i,
            index_consistent
              (mkWorld (lobbies w) (delete i (player_to_lobby w)) sids ids)).
  { intros sids ids i. split; [done|]. intros j c. simpl.
    rewrite lookup_delete_Some. intros [_ Hj]. by apply Hsound. }
  unfold disconnect.
  destruct (sid_to_id w !! sid) as [h|]; [|done].
  destruct (str_truthy h); simpl; [|done].
  destruct (get_lobby_and_player _ h) as [[l|] [c|]] eqn:Hl;
    try apply Hpop.
  apply get_lobby_and_player_Some in Hl as (Hh & Hc & Hl). simpl in Hh, Hl.
  destruct (decide (Lobby.host_id l = h)) as [Hhost|Hhost].
  - match goal with
    | |- context [orphan_members h (Lobby.players l) ?w1] =>
        destruct (orphan_members_spec h (Lobby.players l) w1)
          as (w' & -> & Hlob & Hidx)
    end.
    simpl in *. split; simpl.
    + rewrite Hlob. by apply map_Forall_delete.
    + intros i c'. simpl. intros Hi.
      destruct (Hidx i) as [Hn|[He Hin]]; [congruence|].
      rewrite He in Hi. apply lookup_delete_Some in Hi as [Hne Hi].
      destruct (Hsound i c' Hi) as (l0 & Hl0 & Hor).
      exists l0. split; [|done].
      rewrite Hlob, lookup_delete_ne; [done|].
      intros [= <-]. rewrite Hl in Hl0. injection Hl0 as <-.
      destruct Hor as [?|Hin']; [congruence|].
      destruct Hne. symmetry. by apply Hin.
  - destruct (Lobby.remove_player l h None) as [l' out] eqn:Hrm.
    apply remove_player_keeps in Hrm as (Hhost' & Hcode' & Hids).
    simpl. split; simpl.
    + apply map_Forall_insert_2; [|done].
      rewrite Hcode'. by apply Hkeyed in Hl.
    + intros i c'. simpl. intros Hi.
      apply lookup_delete_Some in Hi as [Hne Hi].
      destruct (Hsound i c' Hi) as (l0 & Hl0 & Hor).
      destruct (decide (c' = c)) as [->|Hcc].
      * rewrite Hl in Hl0. injection Hl0 as <-.
        exists l'. rewrite lookup_insert_eq. split; [done|].
        destruct Hor as [?|Hin]; [left; congruence | right].
        apply Hids; [congruence | done].
      * exists l0. split; [|done].
        rewrite lookup_insert_ne; [done | congruence].
Qed.

End index.

Ltac by_event w ev :=
  destruct ev as [sid d u|sid samples|sid d|sid]; simpl;
  [ intros [= <-]; by apply index_consistent_assign_id
  | destruct (create_lobby w sid samples) as [o|] eqn:Ho; [|done];
    intros [= <-]; by eapply index_consistent_create_lobby
  | intros [= <-]; by apply index_consistent_join_lobby
  | intros [= <-]; by apply index_consistent_disconnect ].

(** C8, one way and with the host counted: [create_lobby] on a code that is
    not live, [join_lobby], [disconnect] (and [assign_id]) keep every lobby
    stored under its own code and every identity of the reverse index mapped
    to a live lobby which has that identity as its host or in its roster. *)
Theorem index_consistent_step w ev w' :
  index_consistent w →
  ¬ collides w ev →
  step w ev = Some w' →
  index_consistent w'.
Proof. intros [Hk Hs] Hfresh. by_event w ev. Qed.

Lemma index_consistent_step_witness :
  index_consistent empty_world
  ∧ ¬ collides empty_world (EvCreateLobby "s_h" [1234])
  ∧ step empty_world (EvCreateLobby "s_h" [1234]) = Some Scenario.unbound_host
  ∧ index_consistent Scenario.unbound_host.
Proof.
  assert (H0 : index_consistent empty_world).
  { split; [apply map_Forall_empty|]. intros i c Hi. simpl in Hi.
    by rewrite lookup_empty in Hi. }
  assert (Hf : ¬ collides empty_world (EvCreateLobby "s_h" [1234])).
  { simpl. rewrite lookup_empty. by intros [? ?]. }
  assert (Hs : step empty_world (EvCreateLobby "s_h" [1234])
               = Some Scenario.unbound_host) by reflexivity.
  split; [exact H0|]. split; [exact Hf|]. split; [exact Hs|].
  exact (index_consistent_step _ _ _ H0 Hf Hs).
Defined.

(** Hence every world reached from the empty one by such events, none of
    them a colliding creation, has a consistent reverse index. *)
Lemma index_consistent_run evs : ∀ w w',
  index_consistent w →
  collision_free w evs →
  run w evs = Some w' →
  index_consistent w'.
Proof.
  induction evs as [|ev evs IH]; intros w w' Hw Hfree; simpl.
  - by intros [= <-].
  - simpl in Hfree. destruct (step w ev) as [w1|] eqn:Hstep; [|done].
    destruct Hfree as [Hev Hfree]. intros Hrun.
    apply (IH w1 w'); [|done|done].
    destruct Hw as [Hk Hs]. revert Hstep. by_event w ev.
Qed.

(** ** The earlier definitions *)

(** The earlier [join_lobby] sends no [error] for a started game and lets a
    thirteenth player in; the earlier [send_reaction] reaches the host. *)
Example earlier_join_lobby_differs :
  let started := out_world (start_game Scenario.b_connected "s_h") in
  out_events (Earlier.join_lobby started "s_b" (Scenario.join_data "Bob" 1234))
  = []
  ∧ out_events (join_lobby started "s_b" (Scenario.join_data "Bob" 1234))
    = [error "Game is already started!" "s_b"]
  ∧ out_events (Earlier.send_reaction Scenario.one_member "s_a" (VStr "heart"))
    = [mkEmit "reaction" (PValue (VStr "heart")) "s_h"].
Proof. repeat split; vm_compute; reflexivity. Qed.

Lemma earlier_join_lobby_no_capacity w sid data l :
  truthy (dict_get data "username") = true →
  truthy (dict_get data "lobby_code") = true →
  lobbies w !! dict_get data "lobby_code" = Some l →
  Lobby.current_state l = WAITING →
  (Lobby.players
     <$> lobbies (out_world (Earlier.join_lobby w sid data))
           !! dict_get data "lobby_code")
  = Some (Lobby.players l
          ++ [Player.init (get_id_from_sid w sid) (dict_get data "username")]).
Proof.
  intros Hu Hc Hl Hs. unfold Earlier.join_lobby.
  rewrite Hu, Hc, Hl. simpl. rewrite decide_False by (by rewrite Hs; intros ?).
  simpl. by rewrite lookup_insert_eq.
Qed.

(** * Further properties of the handlers *)

(** ** What the game flow leaves alone *)

Lemma submit_loop_ids w player_id data ps :
  Player.id <$> (submit_loop w player_id data ps).1.2 = Player.id <$> ps.
Proof.
  induction ps as [|p ps IH]; [done|]. cbn [submit_loop].
  destruct (submit_loop w player_id data ps) as [[e ps'] out]. simpl in IH.
  destruct (decide (Player.id p = player_id));
    [destruct (data !! "prompt"); [|done]|];
    cbn [fst snd]; by rewrite !fmap_cons, IH.
Qed.

Lemma add_score_ids target data ps r :
  add_score target data ps = inr r → Player.id <$> r = Player.id <$> ps.
Proof.
  revert r. induction ps as [|t ps IH]; intros r; simpl.
  - by intros [= <-].
  - destruct (decide (VStr (Player.id t) = target)) as [Ht|Ht].
    + destruct (data !! "score") as [[| z |]|]; try done. by intros [= <-].
    + destruct (add_score target data ps) as [err|r']; [done|].
      intros [= <-]. by rewrite !fmap_cons, (IH r').
Qed.

Lemma vote_loop_ids voter data seen todo :
  Player.id <$> (vote_loop voter data seen todo).2 = Player.id <$> (seen ++ todo).
Proof.
  revert seen. induction todo as [|p todo IH]; intros seen; simpl.
  - by rewrite (right_id_L [] (++)).
  - assert (Hnext : Player.id <$> (vote_loop voter data (seen ++ [p]) todo).2
                    = Player.id <$> (seen ++ p :: todo)).
    { by rewrite IH, <-(assoc_L (++)). }
    destruct (decide (Player.id p = voter)) as [Hp|Hp]; [|done].
    destruct (data !! "id") as [target|]; [|done].
    destruct (bool_decide (target ≠ VStr (Player.id p))
              && negb (Player.voted_already p)); [|done].
    destruct (add_score _ _ _) as [err|r] eqn:Hr; simpl.
    + by rewrite !fmap_app, !fmap_cons.
    + rewrite (add_score_ids _ _ _ _ Hr). by rewrite !fmap_app, !fmap_cons.
Qed.

Lemma give_prompts_ids pool ps :
  Player.id <$> give_prompts pool ps = Player.id <$> ps.
Proof.
  unfold give_prompts. apply list_eq. intros i.
  rewrite !list_lookup_fmap, list_lookup_imap. by destruct (ps !! i).
Qed.

Lemma same_membership_roster w c l ps' :
  lobbies w !! VInt c = Some l →
  Player.id <$> ps' = Lobby.ids l →
  same_membership w
    (set_lobbies (<[VInt c := Lobby.set_players ps' l]> (lobbies w)) w).
Proof.
  intros Hl Hids. right. exists c, l, (Lobby.set_players ps' l).
  split; [done|]. split; [done|]. split; [done|]. split; [done|].
  split; [by left | done].
Qed.

Lemma same_membership_lookup w w' k l' :
  same_membership w w' →
  lobbies w' !! k = Some l' →
  ∃ l, lobbies w !! k = Some l
       ∧ Lobby.host_id l' = Lobby.host_id l
       ∧ Lobby.lobby_code l' = Lobby.lobby_code l
       ∧ Lobby.ids l' = Lobby.ids l
       ∧ (Lobby.current_state l' = Lobby.current_state l
          ∨ Lobby.current_state l' = WRITING).
Proof.
  intros [->|(c & l & l0 & Hl & Hh & Hc & Hi & Hs & ->)]; simpl.
  - intros Hl'. exists l'. by auto 6.
  - destruct (decide (k = VInt c)) as [->|Hne].
    + rewrite lookup_insert_eq. intros [= <-]. exists l. by auto 6.
    + rewrite lookup_insert_ne by done. intros Hl'. exists l'. by auto 6.
Qed.

Lemma same_membership_lookup_inv w w' k l :
  same_membership w w' → lobbies w !! k = Some l → is_Some (lobbies w' !! k).
Proof.
  intros [->|(c & l0 & l1 & Hl & _ & _ & _ & _ & ->)] Hk; simpl; [by eexists|].
  destruct (decide (k = VInt c)) as [->|Hne].
  - rewrite lookup_insert_eq. by eexists.
  - rewrite lookup_insert_ne by done. by eexists.
Qed.

Ltac resolve_lobby w sid l c H :=
  destruct (get_lobby_and_player w (get_id_from_sid w sid)) as [[l|] [c|]] eqn:H;
  simpl; try (by left);
  try (apply get_lobby_and_player_Some in H as (_ & _ & H)).

Lemma game_flow_same_membership w ev w' :
  game_flow ev = true → after w ev = Some w' → same_membership w w'.
Proof.
  destruct ev as [| | | | sid d | sid | sid d | sid draws | sid | sid b | sid
                  | sid | sid d | sid d | sid | sid r]; try done; intros _; simpl.
  - intros [= <-]. unfold cancel_game. resolve_lobby w sid l c Hl.
  - intros [= <-]. unfold start_game. resolve_lobby w sid l c Hl.
    right. exists c, l, (Lobby.set_current_state WRITING l).
    split; [done|]. split; [done|]. split; [done|]. split; [done|].
    split; [by right | done].
  - intros [= <-]. unfold submit_prompt. resolve_lobby w sid l c Hl.
    pose proof (submit_loop_ids w (get_id_from_sid w sid) d (Lobby.players l))
      as Hids.
    destruct (submit_loop _ _ _ _) as [[e ps] out]. simpl in Hids.
    assert (same_membership w
              (set_lobbies (<[VInt c := Lobby.set_players ps l]> (lobbies w)) w))
      by (by apply same_membership_roster).
    destruct e; [done|]. by destruct (forallb _ _).
  - unfold hand_out_prompts. resolve_lobby w sid l c Hl;
      try (intros [= <-]; by left).
    destruct (shuffle_until _ _) as [pool|]; [|done]. intros [= <-]. simpl.
    apply same_membership_roster; [done | apply give_prompts_ids].
  - intros [= <-]. unfold start_drawing. resolve_lobby w sid l c Hl.
  - intros [= <-]. unfold submit_drawing. resolve_lobby w sid l c Hl.
    apply same_membership_roster; [done|].
    unfold Lobby.ids. rewrite <-list_fmap_compose. apply list_fmap_ext.
    intros i p _. simpl. by destruct (decide _).
  - intros [= <-]. unfold end_drawing. resolve_lobby w sid l c Hl.
  - intros [= <-]. by left.
  - intros [= <-]. unfold set_presenter. resolve_lobby w sid l c Hl.
    destruct (d !! "id") as [target|].
    + simpl. apply same_membership_roster; [done|].
      unfold Lobby.ids. rewrite <-list_fmap_compose. by apply list_fmap_ext.
    + destruct (Lobby.players l) as [|p ps] eqn:Hps; simpl; [by left|].
      apply same_membership_roster; [done|]. unfold Lobby.ids. by rewrite Hps.
  - intros [= <-]. unfold vote_presentation. resolve_lobby w sid l c Hl.
    pose proof (vote_loop_ids (get_id_from_sid w sid) d [] (Lobby.players l))
      as Hids.
    destruct (vote_loop _ _ _ _) as [e ps]. simpl in Hids.
    assert (same_membership w
              (set_lobbies (<[VInt c := Lobby.set_players ps l]> (lobbies w)) w))
      by (by apply same_membership_roster).
    by destruct e.
  - intros [= <-]. unfold done_presenting. resolve_lobby w sid l c Hl.
  - intros [= <-]. unfold send_reaction. resolve_lobby w sid l c Hl.
Qed.

(** X1: whatever its payload, and whether it returns or raises, a handler of
    the game flow leaves the connection bindings and the reverse index as they
    are, keeps the set of live lobbies, and keeps the host, the code and the
    roster identities of every lobby. *)
Theorem game_flow_keeps_membership w ev w' :
  game_flow ev = true →
  after w ev = Some w' →
  player_to_lobby w' = player_to_lobby w
  ∧ sid_to_id w' = sid_to_id w
  ∧ id_to_sid w' = id_to_sid w
  ∧ (∀ k, is_Some (lobbies w' !! k) ↔ is_Some (lobbies w !! k))
  ∧ ∀ k l', lobbies w' !! k = Some l' →
            ∃ l, lobbies w !! k = Some l
                 ∧ Lobby.host_id l' = Lobby.host_id l
                 ∧ Lobby.lobby_code l' = Lobby.lobby_code l
                 ∧ Lobby.ids l' = Lobby.ids l.
Proof.
  intros Hev Hafter.
  pose proof (game_flow_same_membership w ev w' Hev Hafter) as Hsame.
  assert (Hmaps : player_to_lobby w' = player_to_lobby w
                  ∧ sid_to_id w' = sid_to_id w ∧ id_to_sid w' = id_to_sid w).
  { by destruct Hsame as [->|(c & l & l0 & _ & _ & _ & _ & _ & ->)]. }
  destruct Hmaps as (? & ? & ?). do 3 (split; [done|]). split.
  - intros k. split.
    + intros [l' Hl'].
      destruct (same_membership_lookup _ _ _ _ Hsame Hl') as (l & Hl & _).
      by eexists.
    + intros [l Hl]. by eapply same_membership_lookup_inv.
  - intros k l' Hl'.
    destruct (same_membership_lookup _ _ _ _ Hsame Hl')
      as (l & Hl & Hh & Hc & Hi & _).
    exists l. auto.
Qed.

Lemma game_flow_keeps_membership_witness :
  ∃ w', after Scenario.round
          (InVotePresentation "s_a" (Scenario.vote_data "B" 3)) = Some w'
        ∧ player_to_lobby w' = player_to_lobby Scenario.round
        ∧ (∀ k l', lobbies w' !! k = Some l' →
                   ∃ l, lobbies Scenario.round !! k = Some l
                        ∧ Lobby.host_id l' = Lobby.host_id l
                        ∧ Lobby.lobby_code l' = Lobby.lobby_code l
                        ∧ Lobby.ids l' = Lobby.ids l).
Proof.
  eexists. split; [reflexivity|].
  destruct (game_flow_keeps_membership Scenario.round
              (InVotePresentation "s_a" (Scenario.vote_data "B" 3)) _
              eq_refl eq_refl) as (Hidx & _ & _ & _ & Hl).
  split; [exact Hidx | exact Hl].
Defined.

(** ** Invariants of every reachable world *)

Lemma length_remove_first player_id ps :
  (length (Lobby.remove_first player_id ps) ≤ length ps)%nat.
Proof.
  induction ps as [|p ps IH]; simpl; [done|].
  destruct (decide (Player.id p = player_id)); simpl; lia.
Qed.

Lemma remove_player_shape l player_id l' out :
  Lobby.remove_player l player_id None = (l', out) →
  out = []
  ∧ (l' = l
     ∨ l' = Lobby.set_players
              (Lobby.remove_first player_id (Lobby.players l)) l).
Proof.
  unfold Lobby.remove_player. destruct (find _ _); intros [= <- <-]; auto.
Qed.

Lemma same_membership_registry_ok w w' :
  same_membership w w' → registry_ok w → registry_ok w'.
Proof.
  intros Hsame Hok k l' Hl'.
  destruct (same_membership_lookup _ _ _ _ Hsame Hl')
    as (l & Hl & _ & Hc & Hi & Hs).
  destruct (Hok k l Hl) as (Hk & Hlen & Hst).
  split; [by rewrite Hc|]. split.
  - apply (f_equal length) in Hi. unfold Lobby.ids in Hi.
    rewrite !length_fmap in Hi. lia.
  - destruct Hs as [->| ->]; auto.
Qed.

Lemma after_registry_ok w ev w' :
  registry_ok w → after w ev = Some w' → registry_ok w'.
Proof.
  intros Hok. destruct (game_flow ev) eqn:Hev.
  { intros Hafter. eapply same_membership_registry_ok; [|done].
    by eapply game_flow_same_membership. }
  destruct ev as [sid d u|sid|sid samples|sid d| | | | | | | | | | | |];
    try done; simpl.
  - by intros [= <-].
  - intros [= <-]. unfold disconnect.
    destruct (sid_to_id w !! sid) as [h|]; [|done].
    destruct (str_truthy h); simpl; [|done].
    destruct (get_lobby_and_player _ h) as [[l|] [c|]] eqn:Hl; try done.
    apply get_lobby_and_player_Some in Hl as (_ & _ & Hl). simpl in Hl.
    destruct (decide (Lobby.host_id l = h)).
    + match goal with
      | |- context [orphan_members h (Lobby.players l) ?w1] =>
          destruct (orphan_members_spec h (Lobby.players l) w1)
            as (w1' & -> & Hlob & _)
      end.
      unfold registry_ok. simpl. rewrite Hlob. by apply map_Forall_delete.
    + destruct (Lobby.remove_player l h None) as [l' out] eqn:Hrm.
      apply remove_player_shape in Hrm as [_ Hl']. simpl.
      apply map_Forall_insert_2; [|done].
      destruct (Hok _ _ Hl) as (Hk & Hlen & Hst).
      destruct Hl' as [->| ->]; [done|].
      split; [done|]. split; [|done]. simpl.
      pose proof (length_remove_first h (Lobby.players l)). lia.
  - unfold create_lobby, Lobby.init.
    destruct (Lobby._generate_lobby_code _ _) as [code|]; [|done].
    intros [= <-]. simpl. apply map_Forall_insert_2; [|done].
    split; [done|]. split; [simpl; lia | by left].
  - intros [= <-]. unfold join_lobby.
    destruct (negb _ || negb _); [done|].
    destruct (lobbies w !! dict_get d "lobby_code") as [l|] eqn:Hl; [|done].
    destruct (decide (Lobby.current_state l ≠ WAITING)); [done|].
    destruct (decide (12 ≤ length (Lobby.players l))%nat); [done|].
    simpl. apply map_Forall_insert_2; [|done].
    destruct (Hok _ _ Hl) as (Hk & Hlen & Hst).
    split; [done|]. split; [|done]. simpl. rewrite length_app. simpl. lia.
Qed.

Lemma play_registry_ok evs : ∀ w w',
  registry_ok w → play w evs = Some w' → registry_ok w'.
Proof.
  induction evs as [|ev evs IH]; intros w w' Hok; simpl.
  - by intros [= <-].
  - destruct (after w ev) as [w1|] eqn:Hafter; [|done].
    apply IH. by eapply after_registry_ok.
Qed.

Lemma registry_ok_empty : registry_ok empty_world.
Proof. apply map_Forall_empty. Qed.

(** X2: in every world reached from the empty one, by any events with any
    payloads and any results of the random draws, no roster holds more than 12
    players. *)
Theorem reachable_rosters_bounded evs w :
  play empty_world evs = Some w → rosters_bounded w.
Proof.
  intros Hplay k l Hl.
  by destruct (play_registry_ok evs _ _ registry_ok_empty Hplay k l Hl)
    as (_ & ? & _).
Qed.

Lemma reachable_rosters_bounded_witness :
  ∃ w, play empty_world Trace.game = Some w ∧ rosters_bounded w.
Proof.
  destruct (play empty_world Trace.game) as [w|] eqn:Hplay;
    [|vm_compute in Hplay; discriminate].
  exists w. split; [reflexivity|].
  exact (reachable_rosters_bounded Trace.game w Hplay).
Defined.

(** X3: in every world reached from the empty one the stored phase of every
    lobby is WAITING or WRITING: no handler ever stores VIEWING, DRAWING,
    PRESENTING or END. *)
Theorem reachable_phase_waiting_or_writing evs w k l :
  play empty_world evs = Some w →
  lobbies w !! k = Some l →
  Lobby.current_state l = WAITING ∨ Lobby.current_state l = WRITING.
Proof.
  intros Hplay Hl.
  by destruct (play_registry_ok evs _ _ registry_ok_empty Hplay k l Hl)
    as (_ & _ & ?).
Qed.

Lemma reachable_phase_waiting_or_writing_witness :
  ∃ w l, play empty_world Trace.game = Some w
         ∧ lobbies w !! VInt 1234 = Some l
         ∧ (Lobby.current_state l = WAITING ∨ Lobby.current_state l = WRITING).
Proof.
  destruct (play empty_world Trace.game) as [w|] eqn:Hplay;
    [|vm_compute in Hplay; discriminate].
  destruct (lobbies w !! VInt 1234) as [l|] eqn:Hl.
  - exists w, l. split; [reflexivity|]. split; [exact Hl|].
    exact (reachable_phase_waiting_or_writing Trace.game w _ l Hplay Hl).
  - exfalso. vm_compute in Hplay. injection Hplay as <-.
    vm_compute in Hl. discriminate.
Defined.

(** *** The reverse index, over all events *)

Lemma same_membership_index_consistent w w' :
  same_membership w w' → index_consistent w → index_consistent w'.
Proof.
  intros Hsame [Hk Hs]. split.
  - intros k l' Hl'.
    destruct (same_membership_lookup _ _ _ _ Hsame Hl') as (l & Hl & _ & Hc & _).
    rewrite Hc. by apply Hk in Hl.
  - intros i c Hi.
    assert (Hi' : player_to_lobby w !! i = Some c).
    { by destruct Hsame as [->|(? & ? & ? & _ & _ & _ & _ & _ & ->)]. }
    destruct (Hs i c Hi') as (l & Hl & Hor).
    destruct (same_membership_lookup_inv _ _ _ _ Hsame Hl) as [l' Hl'].
    destruct (same_membership_lookup _ _ _ _ Hsame Hl')
      as (l0 & Hl0 & Hh & _ & Hids & _).
    exists l'. split; [done|].
    assert (l0 = l) as -> by congruence.
    rewrite Hh, Hids. done.
Qed.

Lemma after_index_consistent w ev w' :
  index_consistent w → ¬ colliding w ev → after w ev = Some w' →
  index_consistent w'.
Proof.
  intros Hw Hfresh. destruct (game_flow ev) eqn:Hev.
  { intros Hafter. eapply same_membership_index_consistent; [|done].
    by eapply game_flow_same_membership. }
  destruct Hw as [Hk Hs].
  destruct ev as [sid d u|sid|sid samples|sid d| | | | | | | | | | | |];
    try done; simpl.
  - intros [= <-]. by apply index_consistent_assign_id.
  - intros [= <-]. by apply index_consistent_disconnect.
  - destruct (create_lobby w sid samples) as [o|] eqn:Ho; [|done].
    intros [= <-]. by eapply index_consistent_create_lobby.
  - intros [= <-]. by apply index_consistent_join_lobby.
Qed.

(** X4: any sequence of inbound events, none of them a creation on a live
    code, takes a world in which every lobby is stored under its own code and
    every identity of the reverse index is mapped to a live lobby that has it
    as its host or in its roster to a world with the same property. *)
Theorem reachable_index_consistent evs : ∀ w w',
  index_consistent w →
  no_collision w evs →
  play w evs = Some w' →
  index_consistent w'.
Proof.
  induction evs as [|ev evs IH]; intros w w' Hw Hfree; simpl.
  - by intros [= <-].
  - simpl in Hfree. destruct (after w ev) as [w1|] eqn:Hafter; [|done].
    destruct Hfree as [Hev Hfree]. apply IH; [|done].
    by eapply after_index_consistent.
Qed.

Lemma reachable_index_consistent_witness :
  ∃ w, play empty_world Trace.game = Some w ∧ index_consistent w.
Proof.
  assert (H0 : index_consistent empty_world).
  { split; [apply map_Forall_empty|]. intros i c Hi. simpl in Hi.
    by rewrite lookup_empty in Hi. }
  assert (Hfree : no_collision empty_world Trace.game).
  { vm_compute. repeat split; try done. by intros [? [=]]. }
  destruct (play empty_world Trace.game) as [w|] eqn:Hplay;
    [|vm_compute in Hplay; discriminate].
  exists w. split; [reflexivity|].
  exact (reachable_index_consistent Trace.game _ w H0 Hfree Hplay).
Defined.

(** ** Disconnecting *)

Lemma orphan_members_shrinks host ps : ∀ w,
  lobbies (orphan_members host ps w).1 = lobbies w
  ∧ player_to_lobby (orphan_members host ps w).1 ⊆ player_to_lobby w
  ∧ sid_to_id (orphan_members host ps w).1 ⊆ sid_to_id w
  ∧ id_to_sid (orphan_members host ps w).1 ⊆ id_to_sid w.
Proof.
  induction ps as [|p ps IH]; intros w; simpl; [done|].
  destruct (decide (Player.id p ≠ host)); [|apply IH].
  match goal with
  | |- context [orphan_members host ps ?w1] =>
      destruct (IH w1) as (Hl & Hp & Hs & Hi);
      destruct (orphan_members host ps w1) as [w' out]
  end.
  assert (Hw' : ∀ (b : bool) o, (if b then (w', o) else (w', out)).1 = w')
    by (by intros []).
  rewrite Hw'. simpl in *.
  destruct (id_to_sid w !! Player.id p) as [s|]; simpl in *.
  - split; [done|]. split; [|split].
    + etrans; [exact Hp | apply delete_subseteq].
    + etrans; [exact Hs | apply delete_subseteq].
    + etrans; [exact Hi | apply delete_subseteq].
  - split; [done|]. split; [|split].
    + etrans; [exact Hp | apply delete_subseteq].
    + done.
    + etrans; [exact Hi | apply delete_subseteq].
Qed.

(** What [disconnect] leaves of the four dicts. *)
Lemma disconnect_shrinks w sid :
  sid_to_id (out_world (disconnect w sid)) ⊆ delete sid (sid_to_id w)
  ∧ id_to_sid (out_world (disconnect w sid)) ⊆ id_to_sid w
  ∧ player_to_lobby (out_world (disconnect w sid)) ⊆ player_to_lobby w
  ∧ dom (lobbies (out_world (disconnect w sid))) ⊆ dom (lobbies w).
Proof.
  unfold disconnect.
  destruct (sid_to_id w !! sid) as [h|]; [|done].
  destruct (str_truthy h); simpl; [|done].
  assert (Hd : ∀ m : gmap string string, delete h m ⊆ m)
    by (intros m; apply delete_subseteq).
  assert (Hd' : delete h (player_to_lobby w) ⊆ player_to_lobby w)
    by apply delete_subseteq.
  destruct (get_lobby_and_player _ h) as [[l|] [c|]] eqn:Hl;
    try (simpl; split; [done|split; [apply Hd|split; [apply Hd'|done]]]).
  apply get_lobby_and_player_Some in Hl as (_ & _ & Hl). simpl in Hl.
  destruct (decide (Lobby.host_id l = h)).
  - match goal with
    | |- context [orphan_members h (Lobby.players l) ?w1] =>
        destruct (orphan_members_shrinks h (Lobby.players l) w1)
          as (Hlob & Hp & Hs & Hi);
        destruct (orphan_members h (Lobby.players l) w1) as [w' out]
    end.
    simpl in *. split; [done|]. split; [by etrans|]. split; [by etrans|].
    rewrite Hlob. apply subseteq_dom, delete_subseteq.
  - destruct (Lobby.remove_player l h None) as [l' out]. simpl.
    split; [done|]. split; [done|]. split; [done|].
    by rewrite dom_insert_lookup_L.
Qed.

(** The identity bound to the connection that leaves is unbound, and taken
    out of the reverse index. *)
Lemma disconnect_unbinds w sid i :
  sid_to_id w !! sid = Some i →
  str_truthy i = true →
  id_to_sid (out_world (disconnect w sid)) !! i = None
  ∧ player_to_lobby (out_world (disconnect w sid)) !! i = None.
Proof.
  intros Hsid Hi. unfold disconnect. rewrite Hsid, Hi. simpl.
  destruct (get_lobby_and_player _ i) as [[l|] [c|]] eqn:Hl; simpl;
    try (by rewrite !lookup_delete_eq).
  destruct (decide (Lobby.host_id l = i)).
  - match goal with
    | |- context [orphan_members i (Lobby.players l) ?w1] =>
        destruct (orphan_members_shrinks i (Lobby.players l) w1)
          as (_ & Hp & _ & Hid);
        destruct (orphan_members i (Lobby.players l) w1) as [w' out]
    end.
    simpl in *. split.
    + eapply lookup_weaken_None; [|exact Hid]. apply lookup_delete_eq.
    + eapply lookup_weaken_None; [|exact Hp]. apply lookup_delete_eq.
  - destruct (Lobby.remove_player l i None) as [l' out]. simpl.
    by rewrite !lookup_delete_eq.
Qed.

Lemma set_sid_to_id_same w sid :
  sid_to_id w !! sid = None → set_sid_to_id (delete sid (sid_to_id w)) w = w.
Proof. intros H. destruct w. unfold set_sid_to_id. simpl in *. by rewrite delete_id. Qed.

(** X5: [disconnect] only removes: afterwards the connection is bound to no
    identity, no dict has gained or changed an entry, and no lobby has been
    added to the registry. *)
Theorem disconnect_only_removes w sid :
  sid_to_id (out_world (disconnect w sid)) !! sid = None
  ∧ sid_to_id (out_world (disconnect w sid)) ⊆ sid_to_id w
  ∧ id_to_sid (out_world (disconnect w sid)) ⊆ id_to_sid w
  ∧ player_to_lobby (out_world (disconnect w sid)) ⊆ player_to_lobby w
  ∧ dom (lobbies (out_world (disconnect w sid))) ⊆ dom (lobbies w).
Proof.
  destruct (disconnect_shrinks w sid) as (Hs & Hi & Hp & Hl).
  split; [|split; [|done]].
  - eapply lookup_weaken_None; [|exact Hs]. apply lookup_delete_eq.
  - etrans; [exact Hs | apply delete_subseteq].
Qed.

(** X6: a second [disconnect] of the same connection changes nothing and sends
    nothing. *)
Theorem disconnect_twice w sid :
  disconnect (out_world (disconnect w sid)) sid
  = Returned (out_world (disconnect w sid)) [].
Proof.
  destruct (disconnect_shrinks w sid) as (Hs & _).
  assert (Hnone : sid_to_id (out_world (disconnect w sid)) !! sid = None).
  { eapply lookup_weaken_None; [|exact Hs]. apply lookup_delete_eq. }
  generalize dependent (out_world (disconnect w sid)). intros w' _ Hnone.
  unfold disconnect. rewrite Hnone. by rewrite set_sid_to_id_same.
Qed.

(** X7: an identity that has bound a new connection with [assign_id] loses its
    binding and its place in the reverse index when its old connection
    disconnects: the handlers then address it by its identity, not by the
    connection it is on. *)
Theorem stale_disconnect_unbinds_identity w old new i uuid :
  sid_to_id w !! old = Some i →
  str_truthy i = true →
  new ≠ old →
  let w1 := out_world (assign_id w new (Some i) uuid) in
  let w2 := out_world (disconnect w1 old) in
  sid_to_id w1 !! new = Some i
  ∧ get_sid_from_id w1 i = new
  ∧ id_to_sid w2 !! i = None
  ∧ player_to_lobby w2 !! i = None
  ∧ get_sid_from_id w2 i = i.
Proof.
  intros Hold Hi Hne w1 w2.
  assert (Hw1 : sid_to_id w1 !! new = Some i ∧ id_to_sid w1 !! i = Some new
                ∧ sid_to_id w1 !! old = Some i).
  { unfold w1, assign_id. simpl. rewrite Hi. simpl.
    rewrite !lookup_insert_eq, lookup_insert_ne by done. done. }
  destruct Hw1 as (Hnew & Hbound & Hold1).
  destruct (disconnect_unbinds w1 old i Hold1 Hi) as [Hid Hidx].
  split; [done|]. split; [unfold get_sid_from_id; by rewrite Hbound|].
  split; [done|]. split; [done|].
  unfold get_sid_from_id, w2. by rewrite Hid.
Qed.

Lemma stale_disconnect_unbinds_identity_witness :
  let w1 := out_world (assign_id Scenario.two_members "s_a2" (Some "A") "u9") in
  let w2 := out_world (disconnect w1 "s_a") in
  (Lobby.ids <$> lobbies Scenario.two_members !! VInt 1234) = Some ["A"; "B"]
  ∧ sid_to_id w1 !! "s_a2" = Some "A"
  ∧ get_sid_from_id w2 "A" = "A"
  ∧ player_to_lobby w2 !! "A" = None.
Proof.
  intros w1 w2.
  assert (Hold : sid_to_id Scenario.two_members !! "s_a" = Some "A")
    by (vm_compute; reflexivity).
  assert (Hne : "s_a2" ≠ "s_a") by discriminate.
  destruct (stale_disconnect_unbinds_identity Scenario.two_members
              "s_a" "s_a2" "A" "u9" Hold eq_refl Hne)
    as (Hnew & _ & _ & Hidx & Haddr).
  split; [vm_compute; reflexivity|]. split; [exact Hnew|].
  split; [exact Haddr | exact Hidx].
Defined.

(** *** A member leaves *)

Lemma remove_first_notin player_id ps :
  player_id ∉ Player.id <$> ps → Lobby.remove_first player_id ps = ps.
Proof.
  induction ps as [|p ps IH]; simpl; [done|].
  rewrite not_elem_of_cons. intros [Hne Hin].
  rewrite decide_False by done. by rewrite IH.
Qed.

Lemma remove_first_snoc player_id ps p :
  player_id ∉ Player.id <$> ps → Player.id p = player_id →
  Lobby.remove_first player_id (ps ++ [p]) = ps.
Proof.
  intros Hin Hp. induction ps as [|a ps IH]; simpl.
  - by rewrite decide_True.
  - simpl in Hin. apply not_elem_of_cons in Hin as [Hne Hin].
    rewrite decide_False by done. by rewrite IH.
Qed.

(** [Lobby.remove_player] takes the first entry of the identity out of the
    roster, if there is one. *)
Lemma remove_player_remove_first l player_id :
  (Lobby.remove_player l player_id None).1
  = Lobby.set_players (Lobby.remove_first player_id (Lobby.players l)) l.
Proof.
  unfold Lobby.remove_player.
  destruct (find _ _) as [p|] eqn:Hfind; [done|]. simpl.
  rewrite remove_first_notin; [by destruct l|].
  intros (p & Hp & Hin)%list_elem_of_fmap.
  apply list_elem_of_In in Hin.
  pose proof (find_none _ _ Hfind p Hin) as Hnone. simpl in Hnone.
  by rewrite bool_decide_eq_true_2 in Hnone.
Qed.

(** The outcome of [disconnect] for a connection bound to an identity that
    the reverse index maps to a lobby of which it is not the host. *)
Lemma member_disconnect_run w sid i c l :
  sid_to_id w !! sid = Some i →
  str_truthy i = true →
  get_lobby_and_player w i = (Some l, Some c) →
  Lobby.host_id l ≠ i →
  let l' := Lobby.set_players (Lobby.remove_first i (Lobby.players l)) l in
  let w' := mkWorld (<[VInt c := l']> (lobbies w)) (delete i (player_to_lobby w))
              (delete sid (sid_to_id w)) (delete i (id_to_sid w)) in
  let players := PPlayers (Player.get_as_dict <$> Lobby.players l') in
  let host_sid := id_to_sid w !! Lobby.host_id l in
  disconnect w sid
  = Returned w'
      ((if opt_truthy host_sid
        then [mkEmit "players_update" players (default "" host_sid)] else [])
       ++ update_members w' players host_sid (Lobby.players l')).
Proof.
  intros Hsid Hi Hl Hhost l' w' players host_sid.
  unfold disconnect. rewrite Hsid, Hi. simpl.
  assert (Hl' : get_lobby_and_player
                  (set_sid_to_id (delete sid (sid_to_id w)) w) i
                = (Some l, Some c)) by exact Hl.
  rewrite Hl'. rewrite decide_False by done.
  pose proof (remove_player_remove_first l i) as Hrm.
  destruct (Lobby.remove_player l i None) as [l0 out0]. simpl in Hrm. subst l0.
  simpl. rewrite lookup_delete_ne by done. done.
Qed.

Lemma update_members_event w players host_sid ps e :
  e ∈ update_members w players host_sid ps →
  ∃ s, e = mkEmit "players_update" players s.
Proof.
  induction ps as [|p ps IH]; simpl; [by intros ?%elem_of_nil|].
  destruct (opt_truthy _ && bool_decide _); [|done].
  intros [->|He]%elem_of_cons; [by eexists | by apply IH].
Qed.

Lemma update_members_elem w players host_sid ps p s :
  p ∈ ps →
  id_to_sid w !! Player.id p = Some s →
  str_truthy s = true →
  Some s ≠ host_sid →
  mkEmit "players_update" players s ∈ update_members w players host_sid ps.
Proof.
  intros Hin Hs Ht Hne. induction ps as [|a ps IH]; simpl.
  - by apply elem_of_nil in Hin.
  - apply elem_of_cons in Hin as [<-|Hin].
    + rewrite Hs. simpl. rewrite Ht. simpl.
      rewrite bool_decide_eq_true_2 by done. apply list_elem_of_here.
    + destruct (opt_truthy _ && bool_decide _);
        [apply list_elem_of_further|]; by apply IH.
Qed.

Lemma update_members_skip_host w players h ps :
  filter (λ e, ev_to e = h) (update_members w players (Some h) ps) = [].
Proof.
  induction ps as [|p ps IH]; simpl; [done|].
  destruct (id_to_sid w !! Player.id p) as [s|] eqn:Hs; simpl; [|done].
  destruct (str_truthy s); simpl; [|done].
  destruct (decide (Some s = Some h)) as [Heq|Hne].
  - by rewrite bool_decide_eq_false_2 by (by intros ?).
  - rewrite bool_decide_eq_true_2 by done.
    rewrite filter_cons_False; [done|]. simpl. congruence.
Qed.

(** X8: when a member other than the host disconnects, the first roster entry
    of its identity is removed and the lobby stays; every message sent is a
    [players_update] with the new roster; every remaining member bound to a
    connection is sent one, and the host's connection exactly one. *)
Theorem member_disconnect_updates_roster w sid i c l :
  sid_to_id w !! sid = Some i →
  str_truthy i = true →
  get_lobby_and_player w i = (Some l, Some c) →
  Lobby.host_id l ≠ i →
  let l' := Lobby.set_players (Lobby.remove_first i (Lobby.players l)) l in
  let update :=
    mkEmit "players_update" (PPlayers (Player.get_as_dict <$> Lobby.players l')) in
  ∃ w' out,
    disconnect w sid = Returned w' out
    ∧ lobbies w' = <[VInt c := l']> (lobbies w)
    ∧ player_to_lobby w' = delete i (player_to_lobby w)
    ∧ (∀ e, e ∈ out → ∃ s, e = update s)
    ∧ (∀ p s, p ∈ Lobby.players l' →
              id_to_sid w' !! Player.id p = Some s →
              str_truthy s = true →
              update s ∈ out)
    ∧ (∀ h, id_to_sid w !! Lobby.host_id l = Some h →
            str_truthy h = true →
            filter (λ e, ev_to e = h) out = [update h]).
Proof.
  intros Hsid Hi Hl Hhost l' update.
  rewrite (member_disconnect_run w sid i c l Hsid Hi Hl Hhost).
  eexists _, _. split; [reflexivity|]. split; [done|]. split; [done|].
  fold l'. simpl. split; [|split].
  - intros e [He|He]%elem_of_app.
    + destruct (opt_truthy _); [|by apply elem_of_nil in He].
      apply list_elem_of_singleton in He as ->. by eexists.
    + by eapply update_members_event.
  - intros p s Hp Hs Ht. apply elem_of_app.
    destruct (decide (Some s = id_to_sid w !! Lobby.host_id l)) as [Heq|Hne].
    + left. rewrite <-Heq. simpl. rewrite Ht. apply list_elem_of_here.
    + right. by eapply update_members_elem.
  - intros h Hh Ht. rewrite Hh. simpl. rewrite Ht.
    rewrite filter_app, update_members_skip_host.
    by rewrite filter_cons_True.
Qed.

Lemma member_disconnect_updates_roster_witness :
  let w := Scenario.two_members in
  let roster := PPlayers [Player.get_as_dict (Player.init "B" (VStr "Bob"))] in
  ∃ w', disconnect w "s_a"
        = Returned w' [mkEmit "players_update" roster "s_h";
                       mkEmit "players_update" roster "s_b"]
        ∧ (Lobby.ids <$> lobbies w' !! VInt 1234) = Some ["B"]
        ∧ filter (λ e, ev_to e = "s_h") (out_events (disconnect w "s_a"))
          = [mkEmit "players_update" roster "s_h"].
Proof.
  intros w roster.
  assert (Hsid : sid_to_id w !! "s_a" = Some "A") by (vm_compute; reflexivity).
  assert (Hl : get_lobby_and_player w "A"
               = (Some (Lobby.mk "H" 1234
                          [Player.init "A" (VStr "Ann");
                           Player.init "B" (VStr "Bob")] WAITING), Some 1234)).
  { vm_compute. reflexivity. }
  assert (Hhost : "H" ≠ "A") by discriminate.
  destruct (member_disconnect_updates_roster w "s_a" "A" 1234 _
              Hsid eq_refl Hl Hhost) as (w' & out & Hrun & Hlob & _ & _ & _ & Hh).
  assert (Hout : out_events (disconnect w "s_a")
                 = [mkEmit "players_update" roster "s_h";
                    mkEmit "players_update" roster "s_b"]).
  { vm_compute. reflexivity. }
  rewrite Hrun in Hout. simpl in Hout. subst out.
  exists w'. split; [exact Hrun|]. split.
  - rewrite Hlob. vm_compute. reflexivity.
  - rewrite Hrun. simpl. apply (Hh "s_h"); vm_compute; reflexivity.
Defined.

(** *** Which lobby a disconnect touches *)

Lemma disconnect_other_lobbies w sid k :
  (∀ i c, sid_to_id w !! sid = Some i → player_to_lobby w !! i = Some c →
          k ≠ VInt c) →
  lobbies (out_world (disconnect w sid)) !! k = lobbies w !! k.
Proof.
  intros Hk. unfold disconnect.
  destruct (sid_to_id w !! sid) as [h|]; [|done].
  destruct (str_truthy h); simpl; [|done].
  destruct (get_lobby_and_player _ h) as [[l|] [c|]] eqn:Hl; try done.
  apply get_lobby_and_player_Some in Hl as (Hc & _ & Hl). simpl in Hc, Hl.
  specialize (Hk h c eq_refl Hc).
  destruct (decide (Lobby.host_id l = h)).
  - match goal with
    | |- context [orphan_members h (Lobby.players l) ?w1] =>
        destruct (orphan_members_shrinks h (Lobby.players l) w1) as (Hlob & _);
        destruct (orphan_members h (Lobby.players l) w1) as [w' out]
    end.
    simpl in *. by rewrite Hlob, lookup_delete_ne.
  - destruct (Lobby.remove_player l h None) as [l' out]. simpl.
    by rewrite lookup_insert_ne.
Qed.

(** X9: [disconnect] touches one lobby at most, the one the reverse index maps
    the leaving identity to: every other lobby is left as it is, whether or
    not the identity is its host or in its roster. *)
Theorem disconnect_leaves_other_lobbies w sid k :
  (∀ i c, sid_to_id w !! sid = Some i → player_to_lobby w !! i = Some c →
          k ≠ VInt c) →
  lobbies (out_world (disconnect w sid)) !! k = lobbies w !! k.
Proof. apply disconnect_other_lobbies. Qed.

Lemma disconnect_leaves_other_lobbies_witness :
  let w := Scenario.two_lobbies in
  sid_to_id w !! "s_a" = Some "A"
  ∧ player_to_lobby w !! "A" = Some 5678
  ∧ (Lobby.ids <$> lobbies (out_world (disconnect w "s_a")) !! VInt 1234)
    = Some ["A"]
  ∧ (Lobby.ids <$> lobbies (out_world (disconnect w "s_a")) !! VInt 5678)
    = Some [].
Proof.
  intros w.
  assert (Hsid : sid_to_id w !! "s_a" = Some "A") by (vm_compute; reflexivity).
  assert (Hidx : player_to_lobby w !! "A" = Some 5678)
    by (vm_compute; reflexivity).
  assert (Hk : ∀ i c, sid_to_id w !! "s_a" = Some i →
                      player_to_lobby w !! i = Some c → VInt 1234 ≠ VInt c).
  { intros i c Hi Hc. rewrite Hsid in Hi. injection Hi as <-.
    rewrite Hidx in Hc. injection Hc as <-. discriminate. }
  pose proof (disconnect_leaves_other_lobbies w "s_a" (VInt 1234) Hk) as Heq.
  split; [exact Hsid|]. split; [exact Hidx|]. split.
  - rewrite Heq. vm_compute. reflexivity.
  - vm_compute. reflexivity.
Defined.

(** X10: a host that creates a second lobby is indexed under the second code
    only: when its connection disconnects, the first lobby stays in the
    registry. *)
Theorem second_lobby_orphans_first w sid c1 r1 c2 r2 o1 o2 :
  keyed_by_code (lobbies w) →
  create_lobby w sid (c1 :: r1) = Some o1 →
  create_lobby (out_world o1) sid (c2 :: r2) = Some o2 →
  c1 ≠ c2 →
  lobbies (out_world (disconnect (out_world o2) sid)) !! VInt c1
  = Some (Lobby.mk (get_id_from_sid w sid) c1 [] WAITING).
Proof.
  intros Hk Ho1 Ho2 Hne.
  pose proof (create_lobby_keyed _ _ _ _ Hk Ho1) as Hk1.
  revert Ho1. unfold create_lobby at 1, Lobby.init.
  rewrite generate_lobby_code_first by done. intros [= <-].
  revert Ho2. unfold create_lobby, Lobby.init.
  rewrite generate_lobby_code_first by done. intros [= <-]. simpl in *.
  rewrite disconnect_other_lobbies; simpl.
  - rewrite lookup_insert_ne by congruence. by rewrite lookup_insert_eq.
  - intros i c Hi. unfold get_id_from_sid. simpl. rewrite Hi. simpl.
    rewrite lookup_insert_eq. intros [= <-]. congruence.
Qed.

Lemma second_lobby_orphans_first_witness :
  ∃ o1 o2,
    create_lobby Scenario.b_connected "s_b" [1000] = Some o1
    ∧ create_lobby (out_world o1) "s_b" [2000] = Some o2
    ∧ lobbies (out_world (disconnect (out_world o2) "s_b")) !! VInt 1000
      = Some (Lobby.mk "B" 1000 [] WAITING)
    ∧ lobbies (out_world (disconnect (out_world o2) "s_b")) !! VInt 2000 = None.
Proof.
  assert (Hk : keyed_by_code (lobbies Scenario.b_connected)).
  { apply (bool_decide_unpack _). vm_compute. exact I. }
  assert (Hne : 1000 ≠ 2000) by lia.
  eexists _, _. split; [reflexivity|]. split; [reflexivity|]. split.
  - exact (second_lobby_orphans_first Scenario.b_connected "s_b"
             1000 [] 2000 [] _ _ Hk eq_refl eq_refl Hne).
  - vm_compute. reflexivity.
Defined.

(** *** Joining and leaving *)

(** X11: a connection that joins a lobby and then disconnects leaves the
    registry as it was before the join. *)
Theorem join_then_disconnect_restores_registry w sid i data c l :
  sid_to_id w !! sid = Some i →
  str_truthy i = true →
  truthy (dict_get data "username") = true →
  dict_get data "lobby_code" = VInt c →
  c ≠ 0 →
  lobbies w !! VInt c = Some l →
  Lobby.lobby_code l = c →
  Lobby.current_state l = WAITING →
  (length (Lobby.players l) < 12)%nat →
  Lobby.host_id l ≠ i →
  i ∉ Lobby.ids l →
  let w1 := out_world (join_lobby w sid data) in
  let w2 := out_world (disconnect w1 sid) in
  (Lobby.ids <$> lobbies w1 !! VInt c) = Some (Lobby.ids l ++ [i])
  ∧ lobbies w2 = lobbies w
  ∧ player_to_lobby w2 = delete i (player_to_lobby w).
Proof.
  intros Hsid Hi Hu Hcode Hc Hl Hlc Hst Hlen Hhost Hin w1 w2.
  assert (Hw1 : w1 = mkWorld
                  (<[VInt c := Lobby.set_players
                       (Lobby.players l ++ [Player.init i (dict_get data "username")])
                       l]> (lobbies w))
                  (<[i := c]> (player_to_lobby w)) (sid_to_id w) (id_to_sid w)).
  { unfold w1, join_lobby. rewrite Hu, Hcode. simpl.
    rewrite (proj2 (Z.eqb_neq c 0) Hc). simpl. rewrite Hl.
    rewrite decide_False by (by intros ?).
    rewrite decide_False by lia.
    unfold get_id_from_sid. rewrite Hsid. simpl. by rewrite Hlc. }
  assert (Hl1 : get_lobby_and_player w1 i
                = (Some (Lobby.set_players
                           (Lobby.players l ++ [Player.init i (dict_get data "username")])
                           l), Some c)).
  { apply get_lobby_and_player_Some. rewrite Hw1. simpl.
    by rewrite !lookup_insert_eq. }
  assert (Hsid1 : sid_to_id w1 !! sid = Some i) by (by rewrite Hw1).
  unfold w2.
  rewrite (member_disconnect_run w1 sid i c _ Hsid1 Hi Hl1 Hhost). simpl.
  rewrite remove_first_snoc by done.
  rewrite Hw1. simpl. rewrite lookup_insert_eq. simpl.
  split; [|split].
  - unfold Lobby.ids. simpl. by rewrite fmap_app.
  - rewrite insert_insert_eq. rewrite insert_id; [done|]. by destruct l.
  - by rewrite delete_insert_eq.
Qed.

Lemma join_then_disconnect_restores_registry_witness :
  let w := Scenario.b_connected in
  let w1 := out_world (join_lobby w "s_b" (Scenario.join_data "Bob" 1234)) in
  (Lobby.ids <$> lobbies w !! VInt 1234) = Some ["A"]
  ∧ (Lobby.ids <$> lobbies w1 !! VInt 1234) = Some ["A"; "B"]
  ∧ lobbies (out_world (disconnect w1 "s_b")) = lobbies w.
Proof.
  intros w w1.
  assert (Hsid : sid_to_id w !! "s_b" = Some "B") by (vm_compute; reflexivity).
  assert (Hl : lobbies w !! VInt 1234
               = Some (Lobby.mk "H" 1234 [Player.init "A" (VStr "Ann")] WAITING)).
  { vm_compute. reflexivity. }
  assert (Hc : 1234 ≠ 0) by lia.
  assert (Hlen : (length [Player.init "A" (VStr "Ann")] < 12)%nat)
    by (simpl; lia).
  assert (Hhost : "H" ≠ "B") by discriminate.
  assert (Hin : "B" ∉ ["A"]).
  { intros [H|H]%elem_of_cons; [discriminate | by apply elem_of_nil in H]. }
  destruct (join_then_disconnect_restores_registry w "s_b" "B"
              (Scenario.join_data "Bob" 1234) 1234 _
              Hsid eq_refl eq_refl eq_refl Hc Hl eq_refl eq_refl Hlen Hhost Hin)
    as (Hids & Hreg & _).
  split; [vm_compute; reflexivity|]. split; [exact Hids | exact Hreg].
Defined.

(** ** A started lobby stays closed *)

Lemma generate_lobby_code_elem m samples code :
  Lobby._generate_lobby_code m samples = Some code → code ∈ samples.
Proof.
  induction samples as [|s samples IH]; simpl; [done|].
  destruct (m !! VStr (pretty s)).
  - intros H. by apply list_elem_of_further, IH.
  - intros [= ->]. apply list_elem_of_here.
Qed.

Lemma after_not_joinable w ev w' c :
  after w ev = Some w' →
  ¬ may_create c ev →
  not_joinable (VInt c) w →
  not_joinable (VInt c) w'.
Proof.
  intros Hafter Hev Hw. destruct (game_flow ev) eqn:Hflow.
  { intros l' Hl'.
    pose proof (game_flow_same_membership w ev w' Hflow Hafter) as Hsame.
    destruct (same_membership_lookup _ _ _ _ Hsame Hl')
      as (l & Hl & _ & _ & _ & [Hs|Hs]); rewrite Hs; [by apply Hw | done]. }
  revert Hafter.
  destruct ev as [sid d u|sid|sid samples|sid d| | | | | | | | | | | |];
    try done; simpl.
  - by intros [= <-].
  - intros [= <-]. unfold disconnect.
    destruct (sid_to_id w !! sid) as [h|]; [|done].
    destruct (str_truthy h); simpl; [|done].
    destruct (get_lobby_and_player _ h) as [[l|] [c0|]] eqn:Hl; try done.
    apply get_lobby_and_player_Some in Hl as (_ & _ & Hl). simpl in Hl.
    destruct (decide (Lobby.host_id l = h)).
    + match goal with
      | |- context [orphan_members h (Lobby.players l) ?w1] =>
          destruct (orphan_members_shrinks h (Lobby.players l) w1)
            as (Hlob & _);
          destruct (orphan_members h (Lobby.players l) w1) as [w1' out]
      end.
      simpl in *. intros l'. simpl. rewrite Hlob.
      intros [_ Hl']%lookup_delete_Some. by apply Hw.
    + destruct (Lobby.remove_player l h None) as [l0 out] eqn:Hrm.
      apply remove_player_shape in Hrm as [_ Hl0]. simpl.
      intros l'. simpl. destruct (decide (c = c0)) as [->|Hne].
      * rewrite lookup_insert_eq. intros [= <-].
        destruct Hl0 as [->| ->]; simpl; by apply Hw.
      * rewrite lookup_insert_ne by congruence. apply Hw.
  - unfold create_lobby, Lobby.init.
    destruct (Lobby._generate_lobby_code _ _) as [code|] eqn:Hcode; [|done].
    apply generate_lobby_code_elem in Hcode.
    intros [= <-] l'. simpl.
    rewrite lookup_insert_ne; [apply Hw|]. intros [= ->]. by apply Hev.
  - intros [= <-]. unfold join_lobby.
    destruct (negb _ || negb _); [done|].
    destruct (lobbies w !! dict_get d "lobby_code") as [l|] eqn:Hl; [|done].
    destruct (decide (Lobby.current_state l ≠ WAITING)) as [|Hst]; [done|].
    destruct (decide (12 ≤ length (Lobby.players l))%nat); [done|].
    apply dec_stable in Hst. simpl. intros l'. simpl.
    destruct (decide (dict_get d "lobby_code" = VInt c)) as [Heq|Hne].
    + rewrite Heq in Hl. by destruct (Hw l Hl).
    + rewrite lookup_insert_ne by done. apply Hw.
Qed.

Lemma play_not_joinable c evs : ∀ w w',
  play w evs = Some w' →
  Forall (λ ev, ¬ may_create c ev) evs →
  not_joinable (VInt c) w →
  not_joinable (VInt c) w'.
Proof.
  induction evs as [|ev evs IH]; intros w w'; simpl.
  - by intros [= <-].
  - destruct (after w ev) as [w1|] eqn:Hafter; [|done].
    intros Hplay [Hev Hevs]%Forall_cons Hw.
    apply (IH w1 w' Hplay Hevs). by eapply after_not_joinable.
Qed.

(** X12: once [start_game] has run in a lobby, no later [join_lobby] with its
    code adds a player, whatever happens in between, as long as no lobby
    creation draws the code again: the join is answered with an error and
    changes nothing. *)
Theorem started_lobby_refuses_joins w sid l c evs w' sid' data :
  get_lobby_and_player w (get_id_from_sid w sid) = (Some l, Some c) →
  play (out_world (start_game w sid)) evs = Some w' →
  Forall (λ ev, ¬ may_create c ev) evs →
  dict_get data "lobby_code" = VInt c →
  ∃ msg, join_lobby w' sid' data = Returned w' [error msg sid']
         ∧ (msg = "Username and lobby_code are required!"
            ∨ msg = "Lobby not found!"
            ∨ msg = "Game is already started!").
Proof.
  intros Hl Hplay Hevs Hcode.
  assert (Hclosed : not_joinable (VInt c) w').
  { apply (play_not_joinable c evs _ w' Hplay Hevs).
    unfold start_game. rewrite Hl. intros l0. simpl.
    rewrite lookup_insert_eq. by intros [= <-]. }
  unfold join_lobby. rewrite Hcode.
  destruct (negb _ || negb _); [by eauto|].
  destruct (lobbies w' !! VInt c) as [l'|] eqn:Hl'; [|by eauto 6].
  rewrite decide_True by (by apply Hclosed). by eauto 6.
Qed.

Lemma started_lobby_refuses_joins_witness :
  let evs := [InCancelGame "s_h" (PValue VNone); InDisconnect "s_b";
              InAssignId "s_c" (Some "C") "u3"] in
  ∃ w' msg,
    play (out_world (start_game Scenario.two_members "s_h")) evs = Some w'
    ∧ join_lobby w' "s_c" (Scenario.join_data "Cy" 1234)
      = Returned w' [error msg "s_c"]
    ∧ (msg = "Username and lobby_code are required!"
       ∨ msg = "Lobby not found!"
       ∨ msg = "Game is already started!").
Proof.
  intros evs.
  assert (Hl : get_lobby_and_player Scenario.two_members
                 (get_id_from_sid Scenario.two_members "s_h")
               = (Some (Lobby.mk "H" 1234
                          [Player.init "A" (VStr "Ann");
                           Player.init "B" (VStr "Bob")] WAITING), Some 1234)).
  { vm_compute. reflexivity. }
  assert (Hevs : Forall (λ ev, ¬ may_create 1234 ev) evs).
  { repeat constructor; by intros []. }
  destruct (play (out_world (start_game Scenario.two_members "s_h")) evs)
    as [w'|] eqn:Hplay; [|vm_compute in Hplay; discriminate].
  destruct (started_lobby_refuses_joins Scenario.two_members "s_h" _ 1234 evs w'
              "s_c" (Scenario.join_data "Cy" 1234) Hl Hplay Hevs eq_refl)
    as (msg & Hrun & Hmsg).
  exists w', msg. split; [reflexivity|]. split; [exact Hrun | exact Hmsg].
Defined.

(** ** Writing and handing out prompts *)

Lemma submit_loop_prompt w player_id data v ps :
  data !! "prompt" = Some v →
  submit_loop w player_id data ps
  = (None, write_prompt player_id v <$> ps,
     (λ _, mkEmit "writing_submitted" (PValue VNone) (get_sid_from_id w player_id))
       <$> filter (λ p, Player.id p = player_id) ps).
Proof.
  intros Hv. induction ps as [|p ps IH]; [done|].
  cbn [submit_loop]. rewrite IH, Hv, fmap_cons.
  destruct (decide (Player.id p = player_id)) as [Hp|Hp].
  - rewrite filter_cons_True by done.
    assert (write_prompt player_id v p = Player.set_prompt_written v p) as ->
      by (unfold write_prompt; by rewrite decide_True).
    done.
  - rewrite filter_cons_False by done.
    assert (write_prompt player_id v p = p) as ->
      by (unfold write_prompt; by rewrite decide_False).
    done.
Qed.

(** X13: with a payload that holds a prompt, [submit_prompt] stores it in
    every roster entry of the sender and acknowledges each; [finish_writing],
    with the roster size, goes to the host exactly when no entry is then left
    without a prompt: an empty prompt never completes the phase, and a sender
    without an entry completes it when all the others have written. *)
Theorem submit_prompt_finishes_writing w sid data v l c :
  get_lobby_and_player w (get_id_from_sid w sid) = (Some l, Some c) →
  data !! "prompt" = Some v →
  let sender := get_id_from_sid w sid in
  let ack := mkEmit "writing_submitted" (PValue VNone) (get_sid_from_id w sender) in
  let finish :=
    mkEmit "finish_writing" (PValue (VInt (Z.of_nat (length (Lobby.players l)))))
      (get_sid_from_id w (Lobby.host_id l)) in
  ∃ w' out,
    submit_prompt w sid data = Returned w' out
    ∧ (Lobby.players <$> lobbies w' !! VInt c)
      = Some (write_prompt sender v <$> Lobby.players l)
    ∧ (∀ e, e ∈ out → e = ack ∨ e = finish)
    ∧ (finish ∈ out ↔
       ∀ p, p ∈ Lobby.players l →
            if decide (Player.id p = sender) then truthy v = true
            else truthy (Player.prompt_written p) = true).
Proof.
  intros Hl Hv sender ack finish. unfold submit_prompt. rewrite Hl.
  rewrite (submit_loop_prompt _ _ _ v) by done. fold sender. simpl.
  assert (Hall : forallb (λ p, truthy (Player.prompt_written p))
                   (write_prompt sender v <$> Lobby.players l) = true
                 ↔ ∀ p, p ∈ Lobby.players l →
                        if decide (Player.id p = sender) then truthy v = true
                        else truthy (Player.prompt_written p) = true).
  { rewrite forallb_forall. split.
    - intros H p Hp.
      specialize (H (write_prompt sender v p)). unfold write_prompt in H.
      destruct (decide (Player.id p = sender)); apply H;
        apply list_elem_of_In, list_elem_of_fmap; exists p;
        (split; [by unfold write_prompt; rewrite ?decide_True, ?decide_False by done | done]).
    - intros H p' Hp'. apply list_elem_of_In, list_elem_of_fmap in Hp' as (p & -> & Hp).
      specialize (H p Hp). unfold write_prompt.
      by destruct (decide (Player.id p = sender)). }
  assert (Hacks : ∀ e, e ∈ (λ _ : Player.t, ack)
                             <$> filter (λ p, Player.id p = sender) (Lobby.players l) →
                       e = ack).
  { by intros e (? & -> & _)%list_elem_of_fmap. }
  destruct (forallb _ _) eqn:Hdone.
  - eexists _, _. split; [reflexivity|]. split; [simpl; by rewrite lookup_insert_eq|].
    rewrite length_fmap. fold finish. split.
    + intros e [He|He]%elem_of_app; [left; by apply Hacks|].
      right. by apply list_elem_of_singleton in He.
    + split; [intros _; by apply Hall|]. intros _.
      apply elem_of_app. right. apply list_elem_of_here.
  - eexists _, _. split; [reflexivity|]. split; [simpl; by rewrite lookup_insert_eq|].
    split.
    + intros e He. left. by apply Hacks.
    + split.
      * intros He. by apply Hacks in He.
      * intros H. apply Hall in H. congruence.
Qed.

Lemma submit_prompt_finishes_writing_witness :
  let w := out_world (start_game Scenario.two_members "s_h") in
  let w1 := out_world (submit_prompt w "s_a" {[ "prompt" := VStr "cat" ]}) in
  out_events (submit_prompt w "s_a" {[ "prompt" := VStr "cat" ]})
  = [mkEmit "writing_submitted" (PValue VNone) "s_a"]
  ∧ out_events (submit_prompt w1 "s_b" {[ "prompt" := VStr "" ]})
    = [mkEmit "writing_submitted" (PValue VNone) "s_b"]
  ∧ ∃ w' out,
      submit_prompt w1 "s_b" {[ "prompt" := VStr "dog" ]} = Returned w' out
      ∧ mkEmit "finish_writing" (PValue (VInt 2)) "s_h" ∈ out.
Proof.
  intros w w1.
  split; [vm_compute; reflexivity|]. split; [vm_compute; reflexivity|].
  assert (Hl : get_lobby_and_player w1 (get_id_from_sid w1 "s_b")
               = (Some (Lobby.mk "H" 1234
                          [Player.set_prompt_written (VStr "cat")
                             (Player.init "A" (VStr "Ann"));
                           Player.init "B" (VStr "Bob")] WRITING), Some 1234)).
  { vm_compute. reflexivity. }
  assert (Hv : ({[ "prompt" := VStr "dog" ]} : gmap string value) !! "prompt"
               = Some (VStr "dog")) by (vm_compute; reflexivity).
  destruct (submit_prompt_finishes_writing w1 "s_b" _ _ _ 1234 Hl Hv)
    as (w' & out & Hrun & _ & _ & Hfinish).
  exists w', out. split; [exact Hrun|].
  assert (Hhost : get_sid_from_id w1 "H" = "s_h") by (vm_compute; reflexivity).
  simpl in Hfinish. rewrite Hhost in Hfinish. apply Hfinish.
  assert (Hb : get_id_from_sid w1 "s_b" = "B") by (vm_compute; reflexivity).
  rewrite Hb. intros p [->|Hp]%elem_of_cons.
  - vm_compute. reflexivity.
  - apply list_elem_of_singleton in Hp as ->. vm_compute. reflexivity.
Defined.

Lemma prompt_pool_texts ps :
  text <$> prompt_pool ps = Player.prompt_written <$> ps.
Proof.
  unfold prompt_pool. apply list_eq. intros i.
  rewrite !list_lookup_fmap, list_lookup_imap. by destruct (ps !! i).
Qed.

Lemma give_prompts_texts pool ps :
  length pool = length ps →
  Player.prompt_given <$> give_prompts pool ps = text <$> pool.
Proof.
  intros Hlen. unfold give_prompts. apply list_eq. intros i.
  rewrite !list_lookup_fmap, list_lookup_imap.
  destruct (ps !! i) as [p|] eqn:Hp; simpl.
  - destruct (lookup_lt_is_Some_2 pool i) as [q Hq].
    { rewrite Hlen. by eapply lookup_lt_Some. }
    by rewrite Hq.
  - rewrite lookup_ge_None_2; [done|].
    rewrite Hlen. by apply lookup_ge_None.
Qed.

(** X14: when the shuffles permute the pool and [hand_out_prompts] returns,
    the prompts the players hold are the prompts that were written, each given
    once; each player is sent the one it holds, and the caller [start_viewing]
    after that. *)
Theorem hand_out_prompts_permutes_prompts w sid l c draws o :
  get_lobby_and_player w (get_id_from_sid w sid) = (Some l, Some c) →
  Forall (λ d, d ≡ₚ prompt_pool (Lobby.players l)) draws →
  hand_out_prompts w sid draws = Some o →
  ∃ l', lobbies (out_world o) !! VInt c = Some l'
        ∧ Player.prompt_given <$> Lobby.players l'
          ≡ₚ Player.prompt_written <$> Lobby.players l
        ∧ Player.prompt_written <$> Lobby.players l'
          = Player.prompt_written <$> Lobby.players l
        ∧ out_events o
          = (give_prompt w <$> Lobby.players l')
            ++ [mkEmit "start_viewing" (PValue (VStr "")) sid].
Proof.
  intros Hl Hdraws. unfold hand_out_prompts. rewrite Hl.
  destruct (shuffle_until _ _) as [pool|] eqn:Hpool; [|done].
  intros [= <-]. simpl.
  apply shuffle_until_Some in Hpool as [Hin _].
  pose proof (proj1 (Forall_forall _ _) Hdraws pool Hin) as Hperm. simpl in Hperm.
  eexists. split; [by rewrite lookup_insert_eq|]. simpl.
  split; [|split; [|done]].
  - rewrite give_prompts_texts.
    + by rewrite Hperm, prompt_pool_texts.
    + apply Permutation_length in Hperm. rewrite Hperm.
      unfold prompt_pool. by rewrite length_imap.
  - unfold give_prompts. apply list_eq. intros i.
    rewrite !list_lookup_fmap, list_lookup_imap.
    by destruct (Lobby.players l !! i).
Qed.

Lemma hand_out_prompts_permutes_prompts_witness :
  ∃ o l',
    hand_out_prompts Scenario.written "s_h" [Scenario.swapped] = Some o
    ∧ lobbies (out_world o) !! VInt 1234 = Some l'
    ∧ Player.prompt_given <$> Lobby.players l' ≡ₚ [VStr "cat"; VStr "dog"].
Proof.
  assert (Hl : get_lobby_and_player Scenario.written
                 (get_id_from_sid Scenario.written "s_h")
               = (Some (Lobby.mk "H" 1234
                          [Player.set_prompt_written (VStr "cat")
                             (Player.init "A" (VStr "Ann"));
                           Player.set_prompt_written (VStr "dog")
                             (Player.init "B" (VStr "Bob"))] WRITING),
                  Some 1234)).
  { vm_compute. reflexivity. }
  destruct (hand_out_prompts Scenario.written "s_h" [Scenario.swapped])
    as [o|] eqn:Hrun; [|vm_compute in Hrun; discriminate].
  destruct (hand_out_prompts_permutes_prompts Scenario.written "s_h" _ 1234
              [Scenario.swapped] o Hl) as (l' & Hl' & Hperm & _).
  - constructor; [|constructor]. apply perm_swap.
  - exact Hrun.
  - exists o, l'. split; [reflexivity|]. split; [exact Hl' | exact Hperm].
Defined.

(** ** A vote without a usable score *)

Lemma add_score_bad_score target data ps j q :
  ps !! j = Some q →
  VStr (Player.id q) = target →
  (∀ z, data !! "score" ≠ Some (VInt z)) →
  ∃ e, add_score target data ps = inl e.
Proof.
  intros Hq Ht Hz. revert j Hq.
  induction ps as [|t ps IH]; intros j Hq; [done|]. simpl.
  destruct (decide (VStr (Player.id t) = target)) as [Heq|Hne].
  - destruct (data !! "score") as [[| z |]|] eqn:Hs; try by eexists.
    by destruct (Hz z).
  - destruct j as [|j]; simpl in Hq; [congruence|].
    destruct (IH j Hq) as [e ->]. by eexists.
Qed.

(** X15: a vote for another roster member whose payload has no integer score
    raises when the score is added: the voter's flag has been set by then, no
    score has changed, no [voted] is sent, and a later vote of the voter in
    the round changes nothing. *)
Theorem vote_without_score_uses_the_vote w sid data l c i p j q :
  get_lobby_and_player w (get_id_from_sid w sid) = (Some l, Some c) →
  NoDup (Lobby.ids l) →
  Lobby.players l !! i = Some p →
  Player.id p = get_id_from_sid w sid →
  Player.voted_already p = false →
  Lobby.players l !! j = Some q →
  Player.id q ≠ get_id_from_sid w sid →
  data !! "id" = Some (VStr (Player.id q)) →
  (∀ z, data !! "score" ≠ Some (VInt z)) →
  let w' :=
    set_lobbies
      (<[VInt c := Lobby.set_players
                     (<[i := Player.set_voted_already true p]> (Lobby.players l))
                     l]> (lobbies w)) w in
  (∃ e, vote_presentation w sid data = Raised e w' [])
  ∧ ∀ data', is_Some (data' !! "id") →
             vote_presentation w' sid data' = Returned w' [voted sid].
Proof.
  intros Hl Hnd Hp Hv Hf Hq Hne Hid Hz w'. split.
  - unfold vote_presentation. rewrite Hl.
    assert (Hij : i ≠ j) by (intros ->; congruence).
    rewrite (vote_loop_accept _ _ _ Hid [] _ i p); [| congruence | done.. |];
      simpl.
    + destruct (add_score_bad_score (VStr (Player.id q)) data
                  (<[i := Player.set_voted_already true p]> (Lobby.players l)) j q)
        as [e ->]; [by rewrite list_lookup_insert_ne | done | done |].
      by eexists.
    + intros k p' Hk Hp' Heq.
      assert (k = i); [|lia].
      eapply roster_entry_first; [exact Hnd | exact Hp | exact Hp' | congruence].
  - intros data' [target' Hid'].
    eapply (vote_ignored w' sid data' _ c i
              (Player.set_voted_already true p) target'); [| | | done | done | by right].
    + apply get_lobby_and_player_Some.
      apply get_lobby_and_player_Some in Hl as (Hi & Hc & _).
      split; [exact Hi|]. split; [exact Hc|].
      simpl. by rewrite lookup_insert_eq.
    + unfold Lobby.ids. simpl. rewrite list_fmap_insert. simpl.
      rewrite (list_insert_id (Player.id <$> Lobby.players l) i)
        by (by rewrite list_lookup_fmap, Hp).
      exact Hnd.
    + simpl. apply list_lookup_insert_eq. by eapply lookup_lt_Some.
Qed.

Lemma vote_without_score_uses_the_vote_witness :
  let w := Scenario.round in
  let a := Player.init "A" (VStr "Ann") in
  let b := Player.init "B" (VStr "Bob") in
  ∃ e w',
    vote_presentation w "s_a" {[ "id" := VStr "B"; "score" := VStr "3" ]}
    = Raised e w' []
    ∧ (Lobby.players <$> lobbies w' !! VInt 1234)
      = Some [Player.set_voted_already true a; b]
    ∧ vote_presentation w' "s_a" (Scenario.vote_data "B" 3)
      = Returned w' [voted "s_a"].
Proof.
  intros w a b.
  assert (Hl : get_lobby_and_player w (get_id_from_sid w "s_a")
               = (Some (Lobby.mk "H" 1234 [a; b] WAITING), Some 1234)).
  { vm_compute. reflexivity. }
  assert (Hnd : NoDup (Lobby.ids (Lobby.mk "H" 1234 [a; b] WAITING))).
  { apply (bool_decide_unpack _). vm_compute. exact I. }
  assert (Hne : Player.id b ≠ get_id_from_sid w "s_a")
    by (vm_compute; discriminate).
  assert (Hz : ∀ z, ({[ "id" := VStr "B"; "score" := VStr "3" ]}
                       : gmap string value) !! "score" ≠ Some (VInt z)).
  { intros z. vm_compute. discriminate. }
  assert (Hid : ({[ "id" := VStr "B"; "score" := VStr "3" ]}
                   : gmap string value) !! "id" = Some (VStr (Player.id b))).
  { vm_compute. reflexivity. }
  destruct (vote_without_score_uses_the_vote w "s_a"
              {[ "id" := VStr "B"; "score" := VStr "3" ]} _ 1234 0%nat a 1%nat b
              Hl Hnd eq_refl eq_refl eq_refl eq_refl Hne Hid Hz)
    as [[e Hrun] Hagain].
  eexists e, _. split; [exact Hrun|]. split.
  - simpl. by rewrite lookup_insert_eq.
  - apply Hagain. by eexists.
Defined.

(** ** Drawings and their presentation *)

Lemma player_data_snoc enc ps p :
  player_data enc (ps ++ [p])
  = <[Player.id p := presented enc p]> (player_data enc ps).
Proof. unfold player_data. by rewrite foldl_app. Qed.

(** The entry stored for an identity is the one built from its last roster
    entry. *)
Lemma player_data_lookup enc ps k :
  player_data enc ps !! k
  = presented enc <$> last (filter (λ p, Player.id p = k) ps).
Proof.
  induction ps as [|p ps IH] using rev_ind; [done|].
  rewrite player_data_snoc, filter_app.
  destruct (decide (Player.id p = k)) as [Hp|Hp].
  - rewrite filter_cons_True by done. rewrite filter_nil, last_snoc. simpl.
    by rewrite Hp, lookup_insert_eq.
  - rewrite filter_cons_False by done. rewrite filter_nil, (right_id_L [] (++)).
    by rewrite lookup_insert_ne.
Qed.

Lemma last_filter_elem (P : Player.t → Prop) `{!∀ p, Decision (P p)} ps p :
  p ∈ ps → P p → ∃ p', last (filter P ps) = Some p' ∧ p' ∈ ps ∧ P p'.
Proof.
  intros Hin HP.
  assert (Hf : p ∈ filter P ps) by (by apply list_elem_of_filter).
  destruct (last (filter P ps)) as [p'|] eqn:Hlast.
  - exists p'. split; [done|].
    apply last_Some_elem_of, list_elem_of_filter in Hlast as [? ?]. by split.
  - apply last_None in Hlast. rewrite Hlast in Hf. by apply elem_of_nil in Hf.
Qed.

(** X16: what a player submits with [submit_drawing] is what
    [start_presenting] shows for that identity to any member of the lobby,
    base64-encoded; an empty drawing, or none, is shown as [None]. The dict
    sent has an entry for every identity of the roster and for no other. *)
Theorem submitted_drawing_is_presented enc w sid b l c sid' :
  get_lobby_and_player w (get_id_from_sid w sid) = (Some l, Some c) →
  get_id_from_sid w sid ∈ Lobby.ids l →
  get_lobby_and_player w (get_id_from_sid w sid') = (Some l, Some c) →
  let w' := out_world (submit_drawing w sid b) in
  ∃ m d,
    start_presenting enc w' sid' = Some m
    ∧ m !! get_id_from_sid w sid = Some d
    ∧ pd_drawing_data d = (if blob_truthy b then enc <$> b else None)
    ∧ ∀ k, is_Some (m !! k) ↔ k ∈ Lobby.ids l.
Proof.
  intros Hl Hin Hl' w'.
  set (sender := get_id_from_sid w sid) in *.
  set (ps := (λ p, if decide (Player.id p = sender)
                   then set_drawing_data b p else p) <$> Lobby.players l).
  assert (Hw' : w' = set_lobbies
                       (<[VInt c := Lobby.set_players ps l]> (lobbies w)) w).
  { unfold w', submit_drawing. fold sender. by rewrite Hl. }
  assert (Hids : Player.id <$> ps = Lobby.ids l).
  { unfold ps, Lobby.ids. rewrite <-list_fmap_compose. apply list_fmap_ext.
    intros ? p _. simpl. by destruct (decide _). }
  assert (Hrun : start_presenting enc w' sid' = Some (player_data enc ps)).
  { unfold start_presenting.
    assert (Hres : get_lobby_and_player w' (get_id_from_sid w' sid')
                   = (Some (Lobby.set_players ps l), Some c)).
    { apply get_lobby_and_player_Some.
      apply get_lobby_and_player_Some in Hl' as (Hi & Hc & _).
      rewrite Hw'. split; [exact Hi|]. split; [exact Hc|].
      simpl. by rewrite lookup_insert_eq. }
    by rewrite Hres. }
  assert (Hsender : sender ∈ Player.id <$> ps) by (by rewrite Hids).
  apply list_elem_of_fmap in Hsender as (p0 & Hp0 & Hin0).
  destruct (last_filter_elem (λ p, Player.id p = sender) ps p0 Hin0)
    as (p' & Hlast & Hp' & Hid'); [done|].
  exists (player_data enc ps), (presented enc p').
  split; [exact Hrun|]. split; [|split].
  - by rewrite player_data_lookup, Hlast.
  - apply list_elem_of_fmap in Hp' as (p & -> & Hp).
    assert (Hps : Player.id p = sender) by (by destruct (decide _)).
    rewrite decide_True by done. done.
  - intros k. rewrite player_data_lookup, <-Hids. split.
    + intros [d Hd].
      destruct (last (filter (λ p, Player.id p = k) ps)) as [p|] eqn:Hk; [|done].
      apply last_Some_elem_of, list_elem_of_filter in Hk as [<- Hk].
      apply list_elem_of_fmap. by exists p.
    + intros (p & -> & Hp)%list_elem_of_fmap.
      destruct (last_filter_elem (λ q, Player.id q = Player.id p) ps p Hp)
        as (q & -> & _); [done|]. by eexists.
Qed.

Lemma submitted_drawing_is_presented_witness :
  let w' := out_world (submit_drawing Scenario.written "s_a" (Some "png")) in
  ∃ m d,
    start_presenting (λ s, "b64:" +:+ s) w' "s_h" = Some m
    ∧ m !! "A" = Some d
    ∧ pd_drawing_data d = Some "b64:png".
Proof.
  intros w'.
  assert (Hl : ∀ sid, sid = "s_a" ∨ sid = "s_h" →
               get_lobby_and_player Scenario.written
                 (get_id_from_sid Scenario.written sid)
               = (Some (Lobby.mk "H" 1234
                          [Player.set_prompt_written (VStr "cat")
                             (Player.init "A" (VStr "Ann"));
                           Player.set_prompt_written (VStr "dog")
                             (Player.init "B" (VStr "Bob"))] WRITING),
                  Some 1234)).
  { intros sid [->| ->]; vm_compute; reflexivity. }
  assert (Hin : get_id_from_sid Scenario.written "s_a" ∈ ["A"; "B"]).
  { vm_compute. apply list_elem_of_here. }
  destruct (submitted_drawing_is_presented (λ s, "b64:" +:+ s)
              Scenario.written "s_a" (Some "png") _ 1234 "s_h"
              (Hl "s_a" (or_introl eq_refl)) Hin (Hl "s_h" (or_intror eq_refl)))
    as (m & d & Hrun & Hd & Hdata & _).
  exists m, d. split; [exact Hrun|]. split; [exact Hd | exact Hdata].
Defined.

(** ** Announcing the presenter *)

(** X17: in a roster that holds every identity once, [set_presenter] for the
    identity of a roster member sends [you_are_presenting] to that member
    only, and [current_presenter] to every other member, in roster order; for
    a target that is no roster member everyone is sent [current_presenter].
    The payload is passed on as it is. *)
Theorem set_presenter_announces w sid data target l c :
  get_lobby_and_player w (get_id_from_sid w sid) = (Some l, Some c) →
  NoDup (Lobby.ids l) →
  data !! "id" = Some target →
  let others :=
    (λ p, mkEmit "current_presenter" (PData data)
            (get_sid_from_id w (Player.id p))) <$> Lobby.players l in
  (∀ j q, Lobby.players l !! j = Some q →
          target = VStr (Player.id q) →
          out_events (set_presenter w sid data)
          = <[j := mkEmit "you_are_presenting" (PData data)
                     (get_sid_from_id w (Player.id q))]> others)
  ∧ ((∀ p, p ∈ Lobby.players l → target ≠ VStr (Player.id p)) →
     out_events (set_presenter w sid data) = others).
Proof.
  intros Hl Hnd Hid others.
  assert (Hout : out_events (set_presenter w sid data)
                 = announce_presenter w data target <$> Lobby.players l).
  { unfold set_presenter. by rewrite Hl, Hid. }
  rewrite Hout. split.
  - intros j q Hq ->. apply list_eq. intros k.
    destruct (decide (k = j)) as [->|Hne].
    + rewrite list_lookup_insert_eq
        by (unfold others; rewrite length_fmap; by eapply lookup_lt_Some).
      rewrite list_lookup_fmap, Hq. simpl.
      unfold announce_presenter. by rewrite decide_True.
    + rewrite list_lookup_insert_ne by done.
      unfold others. rewrite !list_lookup_fmap.
      destruct (Lobby.players l !! k) as [p|] eqn:Hp; [|done]. simpl.
      unfold announce_presenter. rewrite decide_False; [done|].
      intros [= Heq]. apply Hne.
      eapply roster_entry_first; [exact Hnd | exact Hq | exact Hp | done].
  - intros Hno. apply list_fmap_ext. intros k p Hp.
    unfold announce_presenter. rewrite decide_False; [done|].
    by apply Hno, list_elem_of_lookup_2 with k.
Qed.

Lemma set_presenter_announces_witness :
  out_events (set_presenter Scenario.two_members "s_h" {[ "id" := VStr "B" ]})
  = [mkEmit "current_presenter" (PData {[ "id" := VStr "B" ]}) "s_a";
     mkEmit "you_are_presenting" (PData {[ "id" := VStr "B" ]}) "s_b"].
Proof.
  assert (Hl : get_lobby_and_player Scenario.two_members
                 (get_id_from_sid Scenario.two_members "s_h")
               = (Some (Lobby.mk "H" 1234
                          [Player.init "A" (VStr "Ann");
                           Player.init "B" (VStr "Bob")] WAITING), Some 1234)).
  { vm_compute. reflexivity. }
  assert (Hnd : NoDup (Lobby.ids (Lobby.mk "H" 1234
                          [Player.init "A" (VStr "Ann");
                           Player.init "B" (VStr "Bob")] WAITING))).
  { apply (bool_decide_unpack _). vm_compute. exact I. }
  assert (Hid : ({[ "id" := VStr "B" ]} : gmap string value) !! "id"
                = Some (VStr "B")) by (vm_compute; reflexivity).
  destruct (set_presenter_announces Scenario.two_members "s_h"
              {[ "id" := VStr "B" ]} (VStr "B") _ 1234 Hl Hnd Hid) as [Hin _].
  rewrite (Hin 1%nat (Player.init "B" (VStr "Bob")) eq_refl eq_refl).
  vm_compute. reflexivity.
Defined.
